(** * Verification of the makerspace 3D-printer monitor

    A shallow embedding of [3dprinter_discord_bot.py]: the two backend
    adapters ([get_printer_status] for PrusaLink, [get_bambu_status] for the
    Bambu MQTT cache), the helpers [format_time], [get_file_name] and
    [parse_username_from_filename], and the notification loop of
    [update_status], which compares every poll against [previous_states] and
    [print_start_times].

    Modelling conventions.
    - A Python [str] is a [string]: the sequence of the bytes of its UTF-8
      encoding.  Every separator, marker and extension the program searches
      for is ASCII, so searching, splitting and slicing by those act the same
      on bytes as on code points.  [str.lower] is modelled on the letters
      [A]..[Z]; it is only used to match the known extensions, and no
      character outside ASCII lowers to a character that occurs in one of
      them.
    - The two global dictionaries are [gmap string _], keyed by printer name.
    - A status dictionary is a record with one optional field per key that
      the program reads with [.get]: an absent key and a [None] value are
      both [None].  The payloads follow the schema of their backend:
      [status["state"]] is a string, times and percentages are integers.
    - A [datetime] is an integer counting microseconds.
    - A call that may raise returns an [outcome]; [exn] lists classes of
      [Exception], which is what the handlers of the program catch.
    - Sending a notification is recording the [event] it is built from. *)

From Stdlib Require Import ZArith String Ascii List Bool Lia.
From stdpp Require Import base strings gmap list option pretty.

Local Open Scope string_scope.
Local Open Scope list_scope.

(** ** Python string primitives *)

Module PyStr.

(** [s[:n]] for [0 <= n]. *)
Fixpoint take (n : nat) (s : string) : string :=
  match n, s with
  | O, _ => ""
  | S _, EmptyString => ""
  | S n', String c s' => String c (take n' s')
  end.

(** [s[n:]] for [0 <= n]. *)
Fixpoint drop (n : nat) (s : string) : string :=
  match n, s with
  | O, _ => s
  | S _, EmptyString => ""
  | S n', String _ s' => drop n' s'
  end.

(** [s.startswith(p)]. *)
Fixpoint startswith (s p : string) {struct p} : bool :=
  match p, s with
  | EmptyString, _ => true
  | String _ _, EmptyString => false
  | String a p', String b s' => if decide (a = b) then startswith s' p' else false
  end.

(** [s.endswith(e)]: [e] is no longer than [s] and equals its tail. *)
Definition endswith (s e : string) : bool :=
  (String.length e <=? String.length s)%nat
  && bool_decide (drop (String.length s - String.length e) s = e).

(** [s[:-k]] for [0 < k]: all but the last [k] characters, the empty
    string when [s] is shorter than [k]. *)
Definition drop_last (k : nat) (s : string) : string :=
  take (String.length s - k) s.

(** [p in s]: [p] occurs in [s] as a substring. *)
Fixpoint contains (p s : string) : bool :=
  startswith s p ||
  match s with
  | EmptyString => false
  | String _ s' => contains p s'
  end.

Definition lower_char (c : ascii) : ascii :=
  let n := nat_of_ascii c in
  if (65 <=? n)%nat && (n <=? 90)%nat then ascii_of_nat (n + 32) else c.

(** [s.lower()]. *)
Fixpoint lower (s : string) : string :=
  match s with
  | EmptyString => ""
  | String c s' => String (lower_char c) (lower s')
  end.

(** Prepend a character to the first piece of a split. *)
Definition push_front (c : ascii) (pieces : list string) : list string :=
  match pieces with
  | [] => [String c ""]
  | p :: ps => String c p :: ps
  end.

(** [s.split("_@")]: the scan goes left to right; where the separator
    starts the current piece is closed and the scan resumes after it. *)
Fixpoint split_marker (s : string) : list string :=
  match s with
  | EmptyString => [""]
  | String c rest =>
      match rest with
      | String d rest' =>
          if decide (c = "_"%char ∧ d = "@"%char)
          then "" :: split_marker rest'
          else push_front c (split_marker rest)
      | EmptyString => push_front c (split_marker rest)
      end
  end.

(** [s.split(".")]. *)
Fixpoint split_dot (s : string) : list string :=
  match s with
  | EmptyString => [""]
  | String c rest =>
      if decide (c = "."%char)
      then "" :: split_dot rest
      else push_front c (split_dot rest)
  end.

(** [pieces[-1]] of a list that [split] returned (never empty). *)
Definition last_piece (pieces : list string) : string :=
  List.last pieces "".

(** Python truth value of a [str]. *)
Definition truthy (s : string) : bool :=
  match s with EmptyString => false | _ => true end.

End PyStr.

(** ** Username extraction *)

Definition known_extensions : list string :=
  [".gcode.3mf"; ".bgcode"; ".gcode"; ".gco"; ".3mf"].

(** The [for ext in [...]] loop of [parse_username_from_filename]: the first
    extension that ends the lowered text is cut off, the text is returned
    whole when the list runs out. *)
Fixpoint strip_extension (exts : list string) (after_at : string) : string :=
  match exts with
  | [] => after_at
  | ext :: exts' =>
      if PyStr.endswith (PyStr.lower after_at) ext
      then PyStr.drop_last (String.length ext) after_at
      else strip_extension exts' after_at
  end.

Definition parse_username_from_filename (file_name : string) : option string :=
  if negb (PyStr.contains "_@" file_name) then None
  else
    let after_at := PyStr.last_piece (PyStr.split_marker file_name) in
    Some (strip_extension known_extensions after_at).

(** ** Durations *)

(** [format_time]: whole minutes, hours split off from sixty minutes on. *)
Definition format_time (seconds : option Z) : string :=
  match seconds with
  | None => "unknown"
  | Some s =>
      if (s <=? 0)%Z then "0m"
      else
        let hours := (s / 3600)%Z in
        let remainder := (s mod 3600)%Z in
        let minutes := (remainder / 60)%Z in
        if (0 <? hours)%Z
        then pretty hours +:+ "h " +:+ pretty minutes +:+ "m"
        else pretty minutes +:+ "m"
  end.

(** ** Exceptions *)

(** The classes of [Exception] that the adapters tell apart.
    [ConnectTimeout] derives from both [ConnectionError] and [Timeout]. *)
Inductive exn : Type :=
  | ConnectionError
  | Timeout
  | ConnectTimeout
  | HTTPError
  | JSONDecodeError
  | AttributeError
  | OtherException.

Definition isinstance_ConnectionError (e : exn) : bool :=
  match e with ConnectionError | ConnectTimeout => true | _ => false end.

Definition isinstance_Timeout (e : exn) : bool :=
  match e with Timeout | ConnectTimeout => true | _ => false end.

Inductive outcome (A : Type) : Type :=
  | Returns (a : A)
  | Raises (e : exn).
Arguments Returns {A} a.
Arguments Raises {A} e.

#[global] Instance outcome_ret : MRet outcome := λ A a, Returns a.

#[global] Instance outcome_bind : MBind outcome := λ A B k m,
  match m with
  | Returns a => k a
  | Raises e => Raises e
  end.

(** ** Status dictionaries *)

(** The members of [job_data["file"]] that [get_file_name] reads. *)
Record job_info := {
  display_name : option string;
  name : option string
}.

Record status := {
  state : string;
  raw_bambu_state : option string;
  progress : option Z;
  time_remaining : option Z;
  time_printing : option Z;
  job_data : option job_info;
  layers : option string
}.

(** [{"state": s}] *)
Definition state_only (s : string) : status :=
  {| state := s; raw_bambu_state := None; progress := None;
     time_remaining := None; time_printing := None; job_data := None;
     layers := None |}.

(** [a or b] on optional strings: [a] when it is a non-empty string. *)
Definition or_else (a : option string) (b : string) : string :=
  match a with
  | Some s => if PyStr.truthy s then s else b
  | None => b
  end.

Definition get_file_name (st : status) : string :=
  match job_data st with
  | Some j => or_else (display_name j) (or_else (name j) "Unknown file")
  | None => "Unknown file"
  end.

(** ** PrusaLink adapter *)

Record printer_json := { pj_state : option string }.

Record job_json := {
  jj_progress : option Z;
  jj_time_remaining : option Z;
  jj_time_printing : option Z
}.

(** The body of [GET /api/v1/status]. *)
Record status_json := {
  sj_printer : option printer_json;
  sj_job : option job_json
}.

Record request := {
  url : string;
  headers : list (string * string);
  auth : option (string * string)
}.

Record response (A : Type) := {
  raise_for_status : outcome unit;
  json : outcome A
}.
Arguments raise_for_status {A} _.
Arguments json {A} _.

(** What [requests.get] does for the two endpoints. *)
Record network := {
  api_v1_status : request → outcome (response status_json);
  api_v1_job : request → outcome (response job_info)
}.

Definition fetch {A : Type} (get : request → outcome (response A))
    (rq : request) : outcome A :=
  resp ← get rq;
  _ ← raise_for_status resp;
  json resp.

(** The authentication set up before the [try]: HTTP digest for
    [auth_type == "digest"], the [X-Api-Key] header otherwise. *)
Definition request_to (path : string) (ip api_key auth_type username : string) : request :=
  let base_url := "http://" +:+ ip in
  if decide (auth_type = "digest")
  then {| url := base_url +:+ path; headers := []; auth := Some (username, api_key) |}
  else {| url := base_url +:+ path; headers := [("X-Api-Key", api_key)]; auth := None |}.

(** [status_data.get("printer", {}).get("state", "UNKNOWN")] *)
Definition printer_state_of (status_data : status_json) : string :=
  match sj_printer status_data with
  | Some p => default "UNKNOWN" (pj_state p)
  | None => "UNKNOWN"
  end.

Definition with_job_data (result : status) (j : option job_info) : status :=
  {| state := state result;
     raw_bambu_state := raw_bambu_state result;
     progress := progress result;
     time_remaining := time_remaining result;
     time_printing := time_printing result;
     job_data := j;
     layers := layers result |}.

Definition get_printer_status (net : network) (ip api_key : string)
    (auth_type username : string) : outcome status :=
  let attempt : outcome status :=
    status_data ←
      fetch (api_v1_status net)
        (request_to "/api/v1/status" ip api_key auth_type username);
    let printer_state := printer_state_of status_data in
    let job := sj_job status_data in
    let result :=
      {| state := printer_state;
         raw_bambu_state := None;
         progress := job ≫= jj_progress;
         time_remaining := job ≫= jj_time_remaining;
         time_printing := job ≫= jj_time_printing;
         job_data := None;
         layers := None |} in
    if decide (printer_state = "PRINTING") then
      match fetch (api_v1_job net)
              (request_to "/api/v1/job" ip api_key auth_type username) with
      | Returns j => Returns (with_job_data result (Some j))
      | Raises _ => Returns (with_job_data result None)
      end
    else Returns result in
  match attempt with
  | Returns result => Returns result
  | Raises e =>
      if isinstance_ConnectionError e then Returns (state_only "OFFLINE")
      else if isinstance_Timeout e then Returns (state_only "OFFLINE")
      else Returns (state_only "UNKNOWN")
  end.

(** ** Bambu adapter *)

(** The getters of a connected [bl.Printer].  [get_state] yields [None] for
    a value that is false in a condition and [Some s] for one whose [str]
    is [s]. *)
Record bambu_client := {
  get_state : outcome (option string);
  get_percentage : outcome (option Z);
  get_time : outcome (option Z);
  subtask_name : outcome (option string);
  client_get_file_name : outcome (option string);
  current_layer_num : outcome Z;
  total_layer_num : outcome Z
}.

Definition state_map : list (string * string) :=
  [ ("IDLE", "IDLE");
    ("RUNNING", "PRINTING");
    ("PREPARE", "PRINTING");
    ("PAUSE", "PAUSED");
    ("FINISH", "IDLE");
    ("FAILED", "ERROR");
    ("UNKNOWN", "UNKNOWN") ].

(** [d.get(key, fallback)] on a dictionary literal. *)
Fixpoint dict_get (d : list (string * string)) (key fallback : string) : string :=
  match d with
  | [] => fallback
  | (k, v) :: d' => if decide (k = key) then v else dict_get d' key fallback
  end.

Definition is_truthy (o : option string) : bool :=
  match o with Some s => PyStr.truthy s | None => false end.

Definition get_bambu_status (bambu_connections : gmap string bambu_client)
    (printer_name : string) : outcome status :=
  match bambu_connections !! printer_name with
  | None => Returns (state_only "OFFLINE")
  | Some client =>
      let attempt : outcome status :=
        st ← get_state client;
        percentage ← get_percentage client;
        time_remaining_min ← get_time client;
        first_name ← subtask_name client;
        file_name ←
          (if is_truthy first_name then Returns first_name
           else client_get_file_name client);
        current_layer ← current_layer_num client;
        total_layers ← total_layer_num client;
        let state_str :=
          match st with
          | Some s => PyStr.last_piece (PyStr.split_dot s)
          | None => "UNKNOWN"
          end in
        let normalized_state := dict_get state_map state_str state_str in
        let raw_state := state_str in
        let time_remaining_sec := (λ m, (m * 60)%Z) <$> time_remaining_min in
        let printing_file :=
          bool_decide (normalized_state = "PRINTING") && is_truthy file_name in
        Returns
          {| state := normalized_state;
             raw_bambu_state := Some raw_state;
             progress := percentage;
             time_remaining := time_remaining_sec;
             time_printing := None;
             job_data :=
               if printing_file
               then Some {| display_name := file_name; name := None |}
               else None;
             layers :=
               if printing_file
               then Some (pretty current_layer +:+ "/" +:+ pretty total_layers)
               else None |} in
      match attempt with
      | Returns result => Returns result
      | Raises _ => Returns (state_only "UNKNOWN")
      end
  end.

(** ** Printer configuration and polling *)

Record printer := {
  p_name : string;
  p_type : option string;
  p_ip : string;
  p_api_key : option string;
  p_password : option string;
  p_auth_type : option string;
  p_username : option string
}.

Definition poll_printer (net : network)
    (bambu_connections : gmap string bambu_client) (p : printer) : outcome status :=
  let printer_type := default "prusa" (p_type p) in
  if decide (printer_type = "bambu")
  then get_bambu_status bambu_connections (p_name p)
  else
    let key := or_else (p_api_key p) (default "" (p_password p)) in
    get_printer_status net (p_ip p) key
      (default "api_key" (p_auth_type p)) (default "maker" (p_username p)).

(** ** The notification loop of [update_status] *)

(** One value of [previous_states]. *)
Record prev_record := {
  prev_state : string;
  prev_file_name : option string;
  prev_username : option string;
  prev_time_printing : option Z
}.

Record store := {
  previous_states : gmap string prev_record;
  print_start_times : gmap string Z
}.

Definition empty_store : store :=
  {| previous_states := ∅; print_start_times := ∅ |}.

Inductive event_kind : Type := Completed | Failed.

(** What a notification is built from: the values that the program puts
    into the message it sends. *)
Record event := {
  ev_kind : event_kind;
  ev_printer : string;
  ev_file : option string;
  ev_user : option string;
  ev_duration : option string
}.

#[global] Instance event_kind_eq_dec : EqDecision event_kind.
Proof. solve_decision. Defined.

#[global] Instance event_eq_dec : EqDecision event.
Proof. solve_decision. Defined.

(** The first loop of [update_status]: the file name and the user that
    go with a polled status. *)
Definition current_file_name (st : status) : option string :=
  if decide (state st = "PRINTING") then Some (get_file_name st) else None.

Definition current_username (file_name : option string) : option string :=
  match file_name with
  | Some f => if PyStr.truthy f then parse_username_from_filename f else None
  | None => None
  end.

(** [int((now - start_time).total_seconds())]: whole seconds, rounded
    towards zero. *)
Definition elapsed_seconds (now start_time : Z) : Z :=
  ((now - start_time) ÷ 1000000)%Z.

(** [if reported_time: ... elif start_time: ... else: ...]; an integer is
    true when it is not zero, a [datetime] always.  [now] is the clock at
    the second branch. *)
Definition duration_str (reported_time : option Z) (start_time : option Z)
    (now : Z) : option string :=
  let reported :=
    match reported_time with
    | Some t => bool_decide (t ≠ 0%Z)
    | None => false
    end in
  if reported then Some (format_time reported_time)
  else
    match start_time with
    | Some t0 => Some (format_time (Some (elapsed_seconds now t0)))
    | None => None
    end.

Definition completed_states : list string := ["IDLE"; "READY"; "FINISHED"].
Definition failed_states : list string := ["ERROR"; "STOPPED"].

(** The body of the second loop of [update_status] for one printer.  [now]
    is what [datetime.now()] returns in this iteration: the loop reads the
    clock either where it records a start or where it measures the elapsed
    time, never both, since the first needs a previous state other than
    [PRINTING] and the second needs [PRINTING]. *)
Definition check_printer (printer_name : string) (now : Z) (st : status)
    (file_name username : option string) (σ : store) : store * option event :=
  let prev := previous_states σ !! printer_name in
  if decide (state st = "UNKNOWN") then (σ, None)
  else
    let was_printing :=
      match prev with
      | Some p => bool_decide (prev_state p = "PRINTING")
      | None => false
      end in
    let starts :=
      if bool_decide (state st = "PRINTING") && negb was_printing
      then <[printer_name := now]> (print_start_times σ)
      else print_start_times σ in
    let '(starts, ev) :=
      match prev with
      | Some p =>
          if decide (prev_state p = "PRINTING") then
            let bambu_finished := bool_decide (raw_bambu_state st = Some "FINISH") in
            let reported_time := prev_time_printing p in
            let start_time := starts !! printer_name in
            let starts := delete printer_name starts in
            let duration := duration_str reported_time start_time now in
            let notify kind :=
              {| ev_kind := kind; ev_printer := printer_name;
                 ev_file := prev_file_name p; ev_user := prev_username p;
                 ev_duration := duration |} in
            if bool_decide (state st ∈ completed_states) || bambu_finished
            then (starts, Some (notify Completed))
            else if bool_decide (state st ∈ failed_states)
            then (starts, Some (notify Failed))
            else (starts, None)
          else (starts, None)
      | None => (starts, None)
      end in
    ({| previous_states :=
          <[printer_name :=
              {| prev_state := state st;
                 prev_file_name := file_name;
                 prev_username := username;
                 prev_time_printing := time_printing st |}]>
            (previous_states σ);
        print_start_times := starts |}, ev).

(** One polled printer as the second loop sees it, with the clock of its
    iteration. *)
Record reading := {
  r_printer : string;
  r_now : Z;
  r_status : status
}.

Definition step (σ : store) (r : reading) : store * option event :=
  let file_name := current_file_name (r_status r) in
  let username := current_username file_name in
  check_printer (r_printer r) (r_now r) (r_status r) file_name username σ.

(** The loop over a sequence of readings; the stores outlive a cycle, so
    consecutive cycles are the loop over their readings in a row. *)
Fixpoint run (σ : store) (rs : list reading) : store * list event :=
  match rs with
  | [] => (σ, [])
  | r :: rs' =>
      let '(σ', ev) := step σ r in
      let '(σ'', evs) := run σ' rs' in
      (σ'', option_list ev ++ evs)
  end.

(** ** The text of a notification *)

(** [str(x)] of an optional string inside an f-string. *)
Definition str_of (o : option string) : string := default "None" o.

(** [member] is the mention of the guild member found for the user, if one
    was found. *)
Definition mention_of (member : option string) (user : option string) : string :=
  match member with
  | Some m => m
  | None => if is_truthy user then "@" +:+ str_of user else "Unknown user"
  end.

Definition duration_line (duration : option string) : string :=
  if is_truthy duration then "Print time: " +:+ str_of duration +:+ "
" else "".

Definition notification_text (member : option string) (e : event) : string :=
  let nl := "
" in
  match ev_kind e with
  | Completed =>
      "**Print Complete** on **" +:+ ev_printer e +:+ "**" +:+ nl +:+
      "`" +:+ str_of (ev_file e) +:+ "`" +:+ nl +:+
      mention_of member (ev_user e) +:+ nl +:+
      duration_line (ev_duration e) +:+
      "Your print is ready for pickup!"
  | Failed =>
      "**Print Failed** on **" +:+ ev_printer e +:+ "**" +:+ nl +:+
      "`" +:+ str_of (ev_file e) +:+ "`" +:+ nl +:+
      mention_of member (ev_user e) +:+ nl +:+
      duration_line (ev_duration e) +:+
      "Please check the printer."
  end.

(** ** Notions used in the statements *)

(** [p] occurs in [s] as a substring. *)
Definition occurs (p s : string) : Prop := ∃ a b, s = a +:+ p +:+ b.

(** What the loop writes into [previous_states] for a reading. *)
Definition record_of (st : status) : prev_record :=
  {| prev_state := state st;
     prev_file_name := current_file_name st;
     prev_username := current_username (current_file_name st);
     prev_time_printing := time_printing st |}.

(** The notification for a printer that was printing, if the reading
    calls for one. *)
Definition exit_event (n : string) (now : Z) (st : status) (p : prev_record)
    (start_time : option Z) : option event :=
  let notify kind :=
    {| ev_kind := kind; ev_printer := n;
       ev_file := prev_file_name p; ev_user := prev_username p;
       ev_duration := duration_str (prev_time_printing p) start_time now |} in
  if bool_decide (state st ∈ completed_states)
     || bool_decide (raw_bambu_state st = Some "FINISH")
  then Some (notify Completed)
  else if bool_decide (state st ∈ failed_states) then Some (notify Failed)
  else None.

(** A record of a printer seen printing [file] for [user]. *)
Definition printing_record (file : string) (user : option string)
    (reported : option Z) : prev_record :=
  {| prev_state := "PRINTING"; prev_file_name := Some file;
     prev_username := user; prev_time_printing := reported |}.

(** A PrusaLink printer that answers [/api/v1/status] with the given state
    and elapsed print time, and whose [/api/v1/job] cannot be reached. *)
Definition prusa_answers (s : string) (printing_for : option Z) : network :=
  {| api_v1_status := λ _,
       Returns {| raise_for_status := Returns ();
                  json := Returns {| sj_printer := Some {| pj_state := Some s |};
                                     sj_job := Some {| jj_progress := None;
                                                       jj_time_remaining := None;
                                                       jj_time_printing := printing_for |} |} |};
     api_v1_job := λ _, Raises ConnectionError |}.

(** No job file name can be got from a status: there is no job data, or
    neither name in it is a non-empty string. *)
Definition no_job_name (st : status) : Prop :=
  match job_data st with
  | None => True
  | Some j => is_truthy (display_name j) = false ∧ is_truthy (name j) = false
  end.

(** A status that the Bambu adapter can return. *)
Definition from_bambu (st : status) : Prop :=
  ∃ bambu_connections printer_name,
    get_bambu_status bambu_connections printer_name = Returns st.

(** The previous record of printer [n], if any, has no elapsed time. *)
Definition no_reported_time (n : string) (σ : store) : Prop :=
  ∀ p, previous_states σ !! n = Some p → prev_time_printing p = None.

(** A connected Bambu printer whose cache holds the given state. *)
Definition bambu_cache (s : string) : bambu_client :=
  {| get_state := Returns (Some s);
     get_percentage := Returns (Some 40%Z);
     get_time := Returns (Some 12%Z);
     subtask_name := Returns (Some "cube_@ann");
     client_get_file_name := Returns None;
     current_layer_num := Returns 3%Z;
     total_layer_num := Returns 10%Z |}.

(** The status polled from a printer named [X1C] with that cache. *)
Definition bambu_poll (s : string) : status :=
  match get_bambu_status {[ "X1C" := bambu_cache s ]} "X1C" with
  | Returns st => st
  | Raises _ => state_only "UNKNOWN"
  end.

(** Two readings of the same poll: the same printer and the same status,
    the clock left free. *)
Definition same_poll (r1 r2 : reading) : Prop :=
  r_printer r1 = r_printer r2 ∧ r_status r1 = r_status r2.

(** Two notifications that agree on everything but the text of the
    duration, which both have or both lack. *)
Definition same_but_duration (e1 e2 : event) : Prop :=
  ev_kind e1 = ev_kind e2 ∧ ev_printer e1 = ev_printer e2 ∧
  ev_file e1 = ev_file e2 ∧ ev_user e1 = ev_user e2 ∧
  (is_Some (ev_duration e1) ↔ is_Some (ev_duration e2)).

(** Two stores with the same previous records and starts recorded for the
    same printers. *)
Definition same_but_clock (σ1 σ2 : store) : Prop :=
  previous_states σ1 = previous_states σ2 ∧
  ∀ n, is_Some (print_start_times σ1 !! n) ↔ is_Some (print_start_times σ2 !! n).

(** Every [PRINTING] record holds an elapsed time that is not zero. *)
Definition printing_is_timed (σ : store) : Prop :=
  ∀ n p, previous_states σ !! n = Some p → prev_state p = "PRINTING" →
         ∃ t, prev_time_printing p = Some t ∧ t ≠ 0%Z.

Definition reading_is_timed (r : reading) : Prop :=
  state (r_status r) = "PRINTING" →
  ∃ t, time_printing (r_status r) = Some t ∧ t ≠ 0%Z.

(** Two polls of a Bambu printer, running and then finished, with the
    second poll [seconds] after the first. *)
Definition bambu_print (seconds : Z) : list reading :=
  [ {| r_printer := "X1C"; r_now := 0;
       r_status := bambu_poll "GcodeState.RUNNING" |};
    {| r_printer := "X1C"; r_now := seconds * 1000000;
       r_status := bambu_poll "GcodeState.FINISH" |} ].

(** ** Further notions used in the statements *)

(** [m] whole minutes as [format_time] shows them. *)
Definition minutes_label (m : Z) : string :=
  if (0 <? m / 60)%Z
  then pretty (m / 60)%Z +:+ "h " +:+ pretty (m mod 60)%Z +:+ "m"
  else pretty m +:+ "m".

Definition is_digit (c : ascii) : bool :=
  bool_decide (c ∈ ["0"; "1"; "2"; "3"; "4"; "5"; "6"; "7"; "8"; "9"]%char).

Fixpoint all_digits (s : string) : bool :=
  match s with
  | EmptyString => true
  | String c s' => is_digit c && all_digits s'
  end.

(** A status that [poll_printer] can return. *)
Definition polled (st : status) : Prop :=
  ∃ net bambu_connections p, poll_printer net bambu_connections p = Returns st.

(** The notifications about printer [n] among [evs], counted. *)
Definition notified (n : string) (evs : list event) : nat :=
  length (filter (λ e, ev_printer e = n) evs).

(** The readings of printer [n] in state [PRINTING] among [rs], counted. *)
Definition seen_printing (n : string) (rs : list reading) : nat :=
  length (filter (λ r, r_printer r = n ∧ state (r_status r) = "PRINTING") rs).

(** A record as the loop writes them: never [UNKNOWN]; with a file name,
    which is not empty, exactly when the state is [PRINTING]; and with the
    user that the file name names. *)
Definition record_ok (p : prev_record) : Prop :=
  prev_state p ≠ "UNKNOWN" ∧
  (prev_state p = "PRINTING" →
     ∃ f, prev_file_name p = Some f ∧ PyStr.truthy f = true) ∧
  (prev_state p ≠ "PRINTING" → prev_file_name p = None) ∧
  prev_username p = prev_file_name p ≫= parse_username_from_filename.

(** Stores as the loop keeps them: every record is as the loop writes
    them, and a start is on record only for a printer whose record says
    [PRINTING]. *)
Definition store_ok (σ : store) : Prop :=
  ∀ n,
    (∀ p, previous_states σ !! n = Some p → record_ok p) ∧
    (is_Some (print_start_times σ !! n) →
     ∃ p, previous_states σ !! n = Some p ∧ prev_state p = "PRINTING").

(** ** The two loops of [update_status] over the configured printers *)

(** One entry of [printer_statuses]. *)
Record row := {
  row_printer : printer;
  row_status : status;
  row_file_name : option string;
  row_username : option string
}.

(** The first loop: every printer of [PRINTERS] is polled in turn and its
    entry appended. *)
Fixpoint poll_all (net : network) (bambu_connections : gmap string bambu_client)
    (printers : list printer) : outcome (list row) :=
  match printers with
  | [] => Returns []
  | p :: printers' =>
      st ← poll_printer net bambu_connections p;
      let file_name := current_file_name st in
      let username := current_username file_name in
      rows ← poll_all net bambu_connections printers';
      Returns ({| row_printer := p; row_status := st;
                  row_file_name := file_name; row_username := username |} :: rows)
  end.

(** The second loop over the entries; [clock i] is what [datetime.now()]
    returns in iteration [i]. *)
Fixpoint check_all (rows : list row) (clock : nat → Z) (i : nat) (σ : store)
    : store * list event :=
  match rows with
  | [] => (σ, [])
  | row :: rows' =>
      let '(σ', ev) :=
        check_printer (p_name (row_printer row)) (clock i) (row_status row)
          (row_file_name row) (row_username row) σ in
      let '(σ'', evs) := check_all rows' clock (S i) σ' in
      (σ'', option_list ev ++ evs)
  end.

(** Both loops in a row, from the polls to the notifications. *)
Definition poll_and_check (net : network)
    (bambu_connections : gmap string bambu_client) (printers : list printer)
    (clock : nat → Z) (σ : store) : outcome (store * list event * list row) :=
  rows ← poll_all net bambu_connections printers;
  let '(σ', evs) := check_all rows clock 0 σ in
  Returns (σ', evs, rows).

(** The readings that the second loop goes through. *)
Fixpoint readings_of (rows : list row) (clock : nat → Z) (i : nat) : list reading :=
  match rows with
  | [] => []
  | row :: rows' =>
      {| r_printer := p_name (row_printer row); r_now := clock i;
         r_status := row_status row |} :: readings_of rows' clock (S i)
  end.

(** An entry as the first loop builds them. *)
Definition row_ok (row : row) : Prop :=
  polled (row_status row) ∧
  row_file_name row = current_file_name (row_status row) ∧
  row_username row = current_username (row_file_name row).

(** ** Guild members *)

Record member := {
  member_name : string;
  member_mention : string
}.

(** The [for member in guild.members] loop of [find_member_by_username]. *)
Fixpoint first_member_named (lower : string → string) (username_lower : string)
    (members : list member) : option member :=
  match members with
  | [] => None
  | m :: members' =>
      if decide (lower (member_name m) = username_lower) then Some m
      else first_member_named lower username_lower members'
  end.

(** [find_member_by_username]; [lower] is Python's [str.lower]. *)
Definition find_member_by_username (lower : string → string)
    (members : list member) (username : option string) : option member :=
  match username with
  | None => None
  | Some u => first_member_named lower (lower u) members
  end.

(** ** Connecting the Bambu printers *)

(** The loop of [connect_bambu_printers] over the configuration.
    [credentials p] is the serial number and the access code of [p], or
    nothing when the configuration lacks one of the two keys, which is a
    [KeyError] outside of any [try]; [connect ip access_code serial] is
    [bl.Printer(ip, access_code, serial)] followed by [mqtt_start()]. *)
Fixpoint connect_each {A : Type} (credentials : printer → option (string * string))
    (connect : string → string → string → outcome A)
    (printers : list printer) (bambu_connections : gmap string A)
    : outcome (gmap string A) :=
  match printers with
  | [] => Returns bambu_connections
  | p :: printers' =>
      if decide (p_type p ≠ Some "bambu")
      then connect_each credentials connect printers' bambu_connections
      else
        match credentials p with
        | None => Raises OtherException
        | Some (serial, access_code) =>
            match connect (p_ip p) access_code serial with
            | Returns client =>
                connect_each credentials connect printers'
                  (<[p_name p := client]> bambu_connections)
            | Raises _ =>
                connect_each credentials connect printers' bambu_connections
            end
        end
  end.

(** [connect_bambu_printers]; [available] is [BAMBU_AVAILABLE]. *)
Definition connect_bambu_printers {A : Type} (available : bool)
    (credentials : printer → option (string * string))
    (connect : string → string → string → outcome A)
    (printers : list printer) (bambu_connections : gmap string A)
    : outcome (gmap string A) :=
  if negb available then Returns bambu_connections
  else connect_each credentials connect printers bambu_connections.

(** The connection of [p] is attempted and made. *)
Definition connects {A : Type} (credentials : printer → option (string * string))
    (connect : string → string → string → outcome A) (p : printer) : Prop :=
  p_type p = Some "bambu" ∧
  ∃ serial access_code client,
    credentials p = Some (serial, access_code) ∧
    connect (p_ip p) access_code serial = Returns client.

(** A call that raises. *)
Definition raises {A : Type} (o : outcome A) : Prop := ∃ e, o = Raises e.

(** One of the getters that [get_bambu_status] calls raises; the file name
    of the cache is only asked for when the subtask name is empty or
    missing. *)
Definition consulted_getter_raises (client : bambu_client) : Prop :=
  raises (get_state client) ∨
  raises (get_percentage client) ∨
  raises (get_time client) ∨
  raises (subtask_name client) ∨
  ((∃ sub, subtask_name client = Returns sub ∧ is_truthy sub = false) ∧
   raises (client_get_file_name client)) ∨
  raises (current_layer_num client) ∨
  raises (total_layer_num client).

(** * Properties *)

(** Membership in one of the state tuples of the program, by cases. *)
Ltac split_in :=
  repeat match goal with
    | H : _ ∈ _ :: _ |- _ => apply elem_of_cons in H as [H|H]
    | H : _ ∈ [] |- _ => by apply elem_of_nil in H
    end.
Ltac solve_in :=
  solve [ unfold not; intros; unfold completed_states, failed_states in *; split_in;
          first [congruence | discriminate]
        | rewrite !elem_of_cons; auto 6 ].

(** ** Sample values *)

Example parse_bob :
  parse_username_from_filename "bracket_v3_@bob.smith.gcode" = Some "bob.smith".
Proof. reflexivity. Qed.

Example parse_two_markers :
  parse_username_from_filename "a_@b_@Carol.GCode" = Some "Carol".
Proof. reflexivity. Qed.

Example format_time_90min : format_time (Some 5400%Z) = "1h 30m".
Proof. vm_compute. reflexivity. Qed.

Example format_time_125s : format_time (Some 125%Z) = "2m".
Proof. vm_compute. reflexivity. Qed.

(** ** Strings *)

Section string_facts.
Implicit Types s t p e : string.

Lemma app_cons c s t : String c s +:+ t = String c (s +:+ t).
Proof. reflexivity. Qed.

Lemma app_assoc' s t u : (s +:+ t) +:+ u = s +:+ t +:+ u.
Proof. induction s as [|c s IH]; [done|]. by rewrite !app_cons, IH. Qed.

Lemma length_app' s t :
  String.length (s +:+ t) = (String.length s + String.length t)%nat.
Proof. induction s as [|c s IH]; [done|]. rewrite app_cons. simpl. by rewrite IH. Qed.

Lemma take_drop n s : PyStr.take n s +:+ PyStr.drop n s = s.
Proof.
  revert s. induction n as [|n IH]; intros [|c s]; simpl; try done.
  by rewrite app_cons, IH.
Qed.

Lemma length_lower s : String.length (PyStr.lower s) = String.length s.
Proof. induction s as [|c s IH]; simpl; congruence. Qed.

Lemma lower_drop n s : PyStr.lower (PyStr.drop n s) = PyStr.drop n (PyStr.lower s).
Proof. revert s. induction n as [|n IH]; intros [|c s]; simpl; auto. Qed.

Lemma endswith_true s e :
  PyStr.endswith s e = true →
  (String.length e ≤ String.length s)%nat ∧
  PyStr.drop (String.length s - String.length e) s = e.
Proof.
  unfold PyStr.endswith. intros [Hlen Heq]%andb_prop. split.
  - by apply Nat.leb_le.
  - by apply bool_decide_eq_true in Heq.
Qed.

(** Two suffixes of one string that are equally long are the same. *)
Lemma endswith_same_length s e1 e2 :
  PyStr.endswith s e1 = true → PyStr.endswith s e2 = true →
  String.length e1 = String.length e2 → e1 = e2.
Proof.
  intros [_ H1]%endswith_true [_ H2]%endswith_true Hlen.
  rewrite <- H1, <- H2. by rewrite Hlen.
Qed.

(** A matched extension is what [drop_last] cuts off, up to case. *)
Lemma drop_last_endswith s e :
  PyStr.endswith (PyStr.lower s) e = true →
  ∃ tail, s = PyStr.drop_last (String.length e) s +:+ tail ∧ PyStr.lower tail = e.
Proof.
  intros [Hlen Heq]%endswith_true. rewrite length_lower in Hlen, Heq.
  exists (PyStr.drop (String.length s - String.length e) s). split.
  - unfold PyStr.drop_last. by rewrite take_drop.
  - by rewrite lower_drop.
Qed.

Lemma startswith_true s p : PyStr.startswith s p = true ↔ ∃ b, s = p +:+ b.
Proof.
  revert s. induction p as [|a p IH]; intros s; simpl.
  - split; [intros _; by exists s | done].
  - destruct s as [|b s].
    + split; [done | intros [t Ht]; discriminate].
    + case_decide as Hab.
      * subst b. rewrite IH. split.
        -- intros [t ->]. by exists t.
        -- intros [t Ht]. rewrite app_cons in Ht. injection Ht as ->. by exists t.
      * split; [done | intros [t Ht]]. rewrite app_cons in Ht. congruence.
Qed.

Lemma contains_occurs p s : PyStr.contains p s = true ↔ occurs p s.
Proof.
  induction s as [|c s IH].
  - simpl. rewrite orb_false_r, startswith_true. split.
    + intros [b Hb]. by exists "", b.
    + intros ([|x a] & b & Hab); [exists b; exact Hab | discriminate].
  - simpl. rewrite orb_true_iff, IH, startswith_true. split.
    + intros [[b Hb] | (a & b & Hab)].
      * by exists "", b.
      * exists (String c a), b. by rewrite app_cons, Hab.
    + intros ([|x a] & b & Hab).
      * left. exists b. exact Hab.
      * right. rewrite app_cons in Hab. injection Hab as -> ->. by exists a, b.
Qed.

Lemma not_occurs_contains p s : ¬ occurs p s ↔ PyStr.contains p s = false.
Proof. rewrite <- contains_occurs. by destruct (PyStr.contains p s). Qed.

End string_facts.

(** ** Username extraction *)

Section username.
Implicit Types s : string.

Lemma not_occurs_short s : (String.length s < 2)%nat → ¬ occurs "_@" s.
Proof.
  intros Hlen (a & b & ->). rewrite !length_app' in Hlen. simpl in Hlen. lia.
Qed.

(** An occurrence in [String c s] starts at [c] or lies in [s]. *)
Lemma occurs_cons c s :
  occurs "_@" (String c s) → (∃ b, String c s = "_@" +:+ b) ∨ occurs "_@" s.
Proof.
  intros ([|x a] & b & Hab).
  - left. exists b. exact Hab.
  - right. rewrite app_cons in Hab. injection Hab as -> ->. by exists a, b.
Qed.

Lemma split_marker_cons c d s :
  PyStr.split_marker (String c (String d s)) =
    if decide (c = "_"%char ∧ d = "@"%char)
    then "" :: PyStr.split_marker s
    else PyStr.push_front c (PyStr.split_marker (String d s)).
Proof. reflexivity. Qed.

(** The scan of [split] either finds no marker and returns the text in
    one piece, or ends with the text after the last marker. *)
Lemma split_marker_cases s :
  (¬ occurs "_@" s ∧ PyStr.split_marker s = [s]) ∨
  (∃ before after_at first mid,
      s = before +:+ "_@" +:+ after_at ∧
      ¬ occurs "_@" after_at ∧
      PyStr.split_marker s = first :: mid ++ [after_at]).
Proof.
  remember (String.length s) as n eqn:Hn.
  revert s Hn. induction (lt_wf n) as [n _ IH]. intros s ->.
  destruct s as [|c [|d rest]].
  - left. split; [apply not_occurs_short; simpl; lia | done].
  - left. split; [apply not_occurs_short; simpl; lia | done].
  - rewrite split_marker_cons. case_decide as Hcd.
    + destruct Hcd as [-> ->]. right.
      destruct (IH (String.length rest) ltac:(simpl; lia) rest eq_refl)
        as [[Hno Hsp] | (b & a & f & m & Hrest & Hno & Hsp)].
      * exists "", rest, "", []. by rewrite Hsp.
      * exists ("_@" +:+ b), a, "", (f :: m). rewrite Hsp. split_and!; [|done..].
        rewrite app_assoc'. by rewrite Hrest at 1.
    + destruct (IH (String.length (String d rest)) ltac:(simpl; lia)
                  (String d rest) eq_refl)
        as [[Hno Hsp] | (b & a & f & m & Hrest & Hno & Hsp)].
      * left. rewrite Hsp. split; [|done].
        intros [[t Ht] | Hocc]%occurs_cons; [|done].
        apply Hcd. by injection Ht as -> -> _.
      * right. exists (String c b), a, (String c f), m.
        rewrite Hsp. split_and!; [|done..]. by rewrite app_cons, <- Hrest.
Qed.

Lemma last_piece_snoc first mid s :
  PyStr.last_piece (first :: mid ++ [s]) = s.
Proof.
  unfold PyStr.last_piece. change (first :: mid ++ [s]) with ((first :: mid) ++ [s]).
  apply last_last.
Qed.

Lemma marker_overlap a1 c b a2 :
  "_@" +:+ a1 = String c b +:+ "_@" +:+ a2 → occurs "_@" a1.
Proof.
  intros Heq. rewrite app_cons in Heq. injection Heq as _ Heq.
  destruct b as [|d b].
  - discriminate Heq.
  - rewrite app_cons in Heq. injection Heq as _ Heq. by exists b, a2.
Qed.

(** The text after the last marker is determined by the file name. *)
Lemma after_last_marker_unique b1 a1 b2 a2 :
  b1 +:+ "_@" +:+ a1 = b2 +:+ "_@" +:+ a2 →
  ¬ occurs "_@" a1 → ¬ occurs "_@" a2 → a1 = a2.
Proof.
  revert b2. induction b1 as [|c b1 IH]; intros [|c2 b2] Heq Hn1 Hn2.
  - by injection Heq.
  - exfalso. apply Hn1. eapply marker_overlap, Heq.
  - exfalso. apply Hn2. eapply marker_overlap. symmetry. exact Heq.
  - rewrite !app_cons in Heq. injection Heq as _ Heq. eauto.
Qed.

Lemma strip_extension_no_match exts s :
  (∀ ext, ext ∈ exts → PyStr.endswith (PyStr.lower s) ext = false) →
  strip_extension exts s = s.
Proof.
  induction exts as [|e exts IH]; intros Hno; [done|]. simpl.
  rewrite (Hno e) by set_solver. apply IH. intros ext Hin. apply Hno. set_solver.
Qed.

(** The list of known extensions runs from the longest to the shortest,
    so the first match of the loop is the longest extension that matches. *)
Lemma strip_extension_longest s ext :
  ext ∈ known_extensions →
  PyStr.endswith (PyStr.lower s) ext = true →
  (∀ ext', ext' ∈ known_extensions →
     (String.length ext < String.length ext')%nat →
     PyStr.endswith (PyStr.lower s) ext' = false) →
  strip_extension known_extensions s = PyStr.drop_last (String.length ext) s.
Proof.
  intros Hin Hext Hlonger.
  assert (Hother : ∀ ext', ext' ∈ known_extensions → ext' ≠ ext →
            (String.length ext ≤ String.length ext')%nat →
            PyStr.endswith (PyStr.lower s) ext' = false).
  { intros ext' Hin' Hne Hle.
    destruct (PyStr.endswith (PyStr.lower s) ext') eqn:Hm; [|done].
    destruct (decide (String.length ext = String.length ext')) as [Heq|Hlt].
    - destruct Hne. by eapply endswith_same_length.
    - rewrite <- Hm. apply Hlonger; [done | lia]. }
  unfold known_extensions in *.
  repeat (apply elem_of_cons in Hin as [-> | Hin]);
    [ .. | by apply elem_of_nil in Hin ]; simpl;
    repeat first
      [ rewrite Hext; reflexivity
      | rewrite Hother by (first [set_solver | done | simpl; lia]) ].
Qed.
End username.

(** C5. [parse_username_from_filename] returns nothing when the file name
    holds no [_@].  When it holds one, the file name splits at its last
    [_@] (no [_@] in what follows it), and the result is what follows it
    with one known extension cut from its end: the longest one that matches
    without regard to case, the case of what remains kept, and nothing cut
    when none matches.  The three file names of the specification give
    [bob.smith], nothing and [alice]. *)
Theorem parse_username_after_last_marker (file_name : string) :
  (¬ occurs "_@" file_name → parse_username_from_filename file_name = None) ∧
  (occurs "_@" file_name →
     ∃ before after_at,
       file_name = before +:+ "_@" +:+ after_at ∧ ¬ occurs "_@" after_at) ∧
  (∀ before after_at,
     file_name = before +:+ "_@" +:+ after_at →
     ¬ occurs "_@" after_at →
     parse_username_from_filename file_name
       = Some (strip_extension known_extensions after_at)) ∧
  (∀ after_at,
     (∀ ext, ext ∈ known_extensions →
        PyStr.endswith (PyStr.lower after_at) ext = false) →
     strip_extension known_extensions after_at = after_at) ∧
  (∀ after_at ext,
     ext ∈ known_extensions →
     PyStr.endswith (PyStr.lower after_at) ext = true →
     (∀ ext', ext' ∈ known_extensions →
        (String.length ext < String.length ext')%nat →
        PyStr.endswith (PyStr.lower after_at) ext' = false) →
     ∃ tail,
       after_at = strip_extension known_extensions after_at +:+ tail ∧
       PyStr.lower tail = ext) ∧
  parse_username_from_filename "bracket_v3_@bob.smith.gcode" = Some "bob.smith" ∧
  parse_username_from_filename "part.3mf" = None ∧
  parse_username_from_filename "x_@alice.gcode.3mf" = Some "alice".
Proof.
  split_and!; try reflexivity.
  - intros Hno%not_occurs_contains. unfold parse_username_from_filename.
    by rewrite Hno.
  - intros Hocc.
    destruct (split_marker_cases file_name)
      as [[Hno _] | (b & a & f & m & Hfile & Hno & Hsp)]; [done | eauto].
  - intros before after_at Hfile Hno. unfold parse_username_from_filename.
    assert (Hocc : occurs "_@" file_name) by by exists before, after_at.
    rewrite (proj2 (contains_occurs _ _) Hocc).
    destruct (split_marker_cases file_name)
      as [[Hno' _] | (b & a & f & m & Hfile' & Hno' & Hsp)]; [done|].
    assert (a = after_at) as ->.
    { apply (after_last_marker_unique b a before after_at); congruence. }
    by rewrite Hsp, last_piece_snoc.
  - apply strip_extension_no_match.
  - intros after_at ext Hin Hext Hlonger.
    rewrite (strip_extension_longest _ ext) by done.
    by apply drop_last_endswith.
Qed.

(** ** The notification loop, one printer at a time *)

Section step_facts.
Implicit Types (σ : store) (r : reading) (p : prev_record) (e : event).

Lemma step_unknown σ r :
  state (r_status r) = "UNKNOWN" → step σ r = (σ, None).
Proof. intros Hst. unfold step, check_printer. by rewrite decide_True. Qed.

Lemma step_was_printing σ r p :
  previous_states σ !! r_printer r = Some p →
  prev_state p = "PRINTING" →
  state (r_status r) ≠ "UNKNOWN" →
  step σ r =
    ({| previous_states :=
          <[r_printer r := record_of (r_status r)]> (previous_states σ);
        print_start_times := delete (r_printer r) (print_start_times σ) |},
     exit_event (r_printer r) (r_now r) (r_status r) p
       (print_start_times σ !! r_printer r)).
Proof.
  intros Hp Hprint Hst. unfold step, check_printer, exit_event.
  rewrite decide_False by done. rewrite Hp.
  rewrite (bool_decide_eq_true_2 _ Hprint), andb_false_r.
  rewrite decide_True by done.
  by repeat case_match; simplify_eq.
Qed.

Lemma step_was_not_printing σ r :
  (∀ p, previous_states σ !! r_printer r = Some p → prev_state p ≠ "PRINTING") →
  state (r_status r) ≠ "UNKNOWN" →
  step σ r =
    ({| previous_states :=
          <[r_printer r := record_of (r_status r)]> (previous_states σ);
        print_start_times :=
          if bool_decide (state (r_status r) = "PRINTING")
          then <[r_printer r := r_now r]> (print_start_times σ)
          else print_start_times σ |},
     None).
Proof.
  intros Hprev Hst. unfold step, check_printer.
  rewrite decide_False by done.
  destruct (previous_states σ !! r_printer r) as [p|] eqn:Hp.
  - specialize (Hprev p eq_refl).
    rewrite (bool_decide_eq_false_2 _ Hprev), decide_False by done.
    by rewrite andb_true_r.
  - by rewrite andb_true_r.
Qed.

(** Every reading falls under one of the three cases above. *)
Lemma step_cases σ r :
  (state (r_status r) = "UNKNOWN" ∧ step σ r = (σ, None)) ∨
  (state (r_status r) ≠ "UNKNOWN" ∧
   ∃ p, previous_states σ !! r_printer r = Some p ∧ prev_state p = "PRINTING") ∨
  (state (r_status r) ≠ "UNKNOWN" ∧
   ∀ p, previous_states σ !! r_printer r = Some p → prev_state p ≠ "PRINTING").
Proof.
  destruct (decide (state (r_status r) = "UNKNOWN")) as [Hu|Hu].
  { left. eauto using step_unknown. }
  right. destruct (previous_states σ !! r_printer r) as [p|] eqn:Hp.
  - destruct (decide (prev_state p = "PRINTING")); [left | right]; split; try done.
    + eauto.
    + intros ? [= <-]. done.
  - right. split; [done|]. intros ? [=].
Qed.

(** A notification is only sent for a printer that was printing. *)
Lemma step_event σ r e :
  (step σ r).2 = Some e →
  state (r_status r) ≠ "UNKNOWN" ∧
  ∃ p, previous_states σ !! r_printer r = Some p ∧
       prev_state p = "PRINTING" ∧
       exit_event (r_printer r) (r_now r) (r_status r) p
         (print_start_times σ !! r_printer r) = Some e.
Proof.
  intros He.
  destruct (step_cases σ r) as [[_ Hs] | [[Hu (p & Hp & Hpr)] | [Hu Hnp]]].
  - by rewrite Hs in He.
  - rewrite (step_was_printing _ _ p) in He by done. eauto 6.
  - by rewrite step_was_not_printing in He.
Qed.

Lemma exit_event_fields n now st p start e :
  exit_event n now st p start = Some e →
  ev_printer e = n ∧ ev_file e = prev_file_name p ∧
  ev_user e = prev_username p ∧
  ev_duration e = duration_str (prev_time_printing p) start now.
Proof. unfold exit_event. intros He. by repeat case_match; simplify_eq. Qed.

(** The loop touches the entries of the polled printer only. *)
Lemma step_frame σ r n :
  r_printer r ≠ n →
  previous_states (step σ r).1 !! n = previous_states σ !! n ∧
  print_start_times (step σ r).1 !! n = print_start_times σ !! n.
Proof.
  intros Hne.
  destruct (step_cases σ r) as [[_ Hs] | [[Hu (p & Hp & Hpr)] | [Hu Hnp]]].
  - by rewrite Hs.
  - rewrite (step_was_printing _ _ p) by done. simpl.
    by rewrite lookup_insert_ne, lookup_delete_ne.
  - rewrite step_was_not_printing by done. simpl.
    rewrite lookup_insert_ne by done. split; [done|].
    case_bool_decide; [by rewrite lookup_insert_ne | done].
Qed.

Lemma step_event_printer σ r e : (step σ r).2 = Some e → ev_printer e = r_printer r.
Proof.
  intros (_ & p & _ & _ & He)%step_event. by apply exit_event_fields in He as [? _].
Qed.

(** What is stored for the polled printer after a reading that is not
    skipped. *)
Lemma step_stores σ r :
  state (r_status r) ≠ "UNKNOWN" →
  previous_states (step σ r).1 !! r_printer r = Some (record_of (r_status r)).
Proof.
  intros Hu.
  destruct (step_cases σ r) as [[? _] | [[_ (p & Hp & Hpr)] | [_ Hnp]]]; [done|..].
  - rewrite (step_was_printing _ _ p) by done. simpl. by rewrite lookup_insert_eq.
  - rewrite step_was_not_printing by done. simpl. by rewrite lookup_insert_eq.
Qed.

Lemma run_cons σ r rs :
  run σ (r :: rs) =
    ((run (step σ r).1 rs).1, option_list (step σ r).2 ++ (run (step σ r).1 rs).2).
Proof. simpl. destruct (step σ r) as [σ' ev]. simpl. by destruct (run σ' rs). Qed.

Lemma run_app σ rs1 rs2 :
  run σ (rs1 ++ rs2) =
    ((run (run σ rs1).1 rs2).1, (run σ rs1).2 ++ (run (run σ rs1).1 rs2).2).
Proof.
  revert σ. induction rs1 as [|r rs1 IH]; intros σ.
  - simpl. by destruct (run σ rs2).
  - rewrite <- app_comm_cons, !run_cons. simpl. rewrite IH. simpl.
    by rewrite app_assoc.
Qed.
End step_facts.

(** ** Exits from printing *)

Section exit_kinds.
Context (n : string) (now : Z) (st : status) (p : prev_record) (start : option Z).

Let notify (kind : event_kind) : event :=
  {| ev_kind := kind; ev_printer := n;
     ev_file := prev_file_name p; ev_user := prev_username p;
     ev_duration := duration_str (prev_time_printing p) start now |}.

Lemma exit_event_completed :
  state st ∈ completed_states ∨ raw_bambu_state st = Some "FINISH" →
  exit_event n now st p start = Some (notify Completed).
Proof.
  intros Hc. unfold exit_event.
  destruct Hc as [Hc|Hc]; rewrite (bool_decide_eq_true_2 _ Hc);
    by rewrite ?orb_true_r.
Qed.

Lemma exit_event_failed :
  state st ∈ failed_states → raw_bambu_state st ≠ Some "FINISH" →
  exit_event n now st p start = Some (notify Failed).
Proof.
  intros Hf Hraw. unfold exit_event.
  rewrite (bool_decide_eq_false_2 _ Hraw), (bool_decide_eq_true_2 _ Hf).
  rewrite bool_decide_eq_false_2; [done | solve_in].
Qed.

Lemma exit_event_none :
  state st ∉ completed_states → raw_bambu_state st ≠ Some "FINISH" →
  state st ∉ failed_states →
  exit_event n now st p start = None.
Proof.
  intros Hc Hraw Hf. unfold exit_event.
  by rewrite !bool_decide_eq_false_2.
Qed.
End exit_kinds.

(** C1, as the program has it.  For a printer whose previous record says
    [PRINTING]: a completion is notified exactly when the reading is not
    [UNKNOWN] and its state is [IDLE], [READY] or [FINISHED] or its raw Bambu
    state is [FINISH]; a failure is notified exactly when the state is
    [ERROR] or [STOPPED] and the raw Bambu state is not [FINISH]; nothing is
    notified otherwise. *)
Theorem printing_exit_classification (σ : store) (r : reading) (p : prev_record) :
  previous_states σ !! r_printer r = Some p →
  prev_state p = "PRINTING" →
  let st := r_status r in
  let completes :=
    state st ≠ "UNKNOWN" ∧
    (state st ∈ ["IDLE"; "READY"; "FINISHED"] ∨ raw_bambu_state st = Some "FINISH") in
  let fails :=
    state st ∈ ["ERROR"; "STOPPED"] ∧ raw_bambu_state st ≠ Some "FINISH" in
  ((∃ e, (step σ r).2 = Some e ∧ ev_kind e = Completed) ↔ completes) ∧
  ((∃ e, (step σ r).2 = Some e ∧ ev_kind e = Failed) ↔ fails) ∧
  (¬ completes → ¬ fails → (step σ r).2 = None).
Proof.
  intros Hp Hprint st completes fails. subst st completes fails.
  change ["IDLE"; "READY"; "FINISHED"] with completed_states.
  change ["ERROR"; "STOPPED"] with failed_states.
  destruct (decide (state (r_status r) = "UNKNOWN")) as [Hu|Hu].
  { rewrite step_unknown by done. simpl. split_and!; [| |done].
    - split; [by intros (e & ? & _) | by intros [? _]].
    - split; [by intros (e & ? & _) | intros [Hin _]].
      rewrite Hu in Hin. solve_in. }
  rewrite (step_was_printing _ _ p) by done. simpl.
  destruct (decide (state (r_status r) ∈ completed_states
                    ∨ raw_bambu_state (r_status r) = Some "FINISH")) as [Hc|Hc].
  { rewrite exit_event_completed by done. split_and!.
    - split; [done | eauto].
    - split; [by intros (e & [= <-] & ?) | intros [Hf Hraw]].
      destruct Hc as [Hc|Hc]; [solve_in | done].
    - intros Hnc. destruct Hnc. done. }
  apply Decidable.not_or in Hc as [Hc Hraw].
  destruct (decide (state (r_status r) ∈ failed_states)) as [Hf|Hf].
  - rewrite exit_event_failed by done. split_and!.
    + split; [by intros (e & [= <-] & ?) | intros [_ [?|?]]; done].
    + split; [done | eauto].
    + intros _ Hnf. destruct Hnf. done.
  - rewrite exit_event_none by done. split_and!; [| |done].
    + split; [by intros (e & ? & _) | intros [_ [?|?]]; done].
    + split; [by intros (e & ? & _) | by intros [? _]].
Qed.

Lemma printing_exit_classification_witness :
  let p := printing_record "cube.gcode" None None in
  let σ := {| previous_states := {[ "MK4" := p ]}; print_start_times := ∅ |} in
  let r := {| r_printer := "MK4"; r_now := 0; r_status := state_only "STOPPED" |} in
  previous_states σ !! r_printer r = Some p ∧
  prev_state p = "PRINTING" ∧
  ∃ e, (step σ r).2 = Some e ∧ ev_kind e = Failed.
Proof.
  intros p σ r. split_and!; [reflexivity | reflexivity |].
  apply (printing_exit_classification σ r p); [reflexivity | reflexivity |].
  split; [solve_in | done].
Defined.

(** C1, as stated, fails on a PrusaLink printer that goes from [PRINTING]
    to [READY]: the adapter hands the state on as it is, it is neither
    [IDLE] nor [FINISHED], there is no raw Bambu state, and the completion
    is notified. *)
Lemma ready_is_notified_as_completed :
  let st1 := match get_printer_status (prusa_answers "PRINTING" (Some 5400%Z))
                     "10.0.0.7" "key" "api_key" "maker" with
             | Returns st => st
             | Raises _ => state_only "UNKNOWN"
             end in
  let st2 := state_only "READY" in
  let rs := [ {| r_printer := "MK4"; r_now := 0; r_status := st1 |};
              {| r_printer := "MK4"; r_now := 30000000; r_status := st2 |} ] in
  state st1 = "PRINTING" ∧
  get_printer_status (prusa_answers "READY" None) "10.0.0.7" "key" "api_key" "maker"
    = Returns st2 ∧
  (state st2 ∉ ["IDLE"; "FINISHED"]) ∧
  raw_bambu_state st2 ≠ Some "FINISH" ∧
  ev_kind <$> (run empty_store rs).2 = [Completed].
Proof.
  intros st1 st2 rs.
  split_and!; [reflexivity | reflexivity | solve_in | done | reflexivity].
Qed.

(** ** Durations of notified prints *)

Lemma duration_str_reported (t : Z) (start : option Z) (now : Z) :
  t ≠ 0%Z → duration_str (Some t) start now = Some (format_time (Some t)).
Proof. intros Ht. unfold duration_str. by rewrite bool_decide_eq_true_2. Qed.

Lemma duration_str_fallback (reported start : option Z) (now : Z) :
  reported = None ∨ reported = Some 0%Z →
  duration_str reported start now =
    (λ t0, format_time (Some (elapsed_seconds now t0))) <$> start.
Proof. intros [-> | ->]; by destruct start. Qed.

(** [format_time] never returns the empty string, so a duration that was
    resolved is always shown. *)
Lemma format_time_truthy (seconds : option Z) : PyStr.truthy (format_time seconds) = true.
Proof.
  destruct seconds as [s|]; [|done]. unfold format_time.
  repeat case_match; try done; by destruct (pretty _).
Qed.

(** C2, as the program has it.  A notification for a printer that was
    printing takes its duration from the previous record's [time_printing]
    when that is present and not zero; otherwise from the clock and the
    start recorded in [print_start_times], when there is one; otherwise it
    has no duration and the message has no print-time line.  A previous
    [time_printing] of 5400 gives [1h 30m] whatever the clock and the
    recorded start are. *)
Theorem duration_priority (σ : store) (r : reading) (p : prev_record) (e : event) :
  previous_states σ !! r_printer r = Some p →
  (step σ r).2 = Some e →
  let start := print_start_times σ !! r_printer r in
  let unreported := prev_time_printing p = None ∨ prev_time_printing p = Some 0%Z in
  (∀ t, prev_time_printing p = Some t → t ≠ 0%Z →
        ev_duration e = Some (format_time (Some t))) ∧
  (∀ t0, unreported → start = Some t0 →
         ev_duration e = Some (format_time (Some (elapsed_seconds (r_now r) t0)))) ∧
  (unreported → start = None →
     ev_duration e = None ∧ duration_line (ev_duration e) = "") ∧
  (∀ d, ev_duration e = Some d →
        duration_line (ev_duration e) = "Print time: " +:+ d +:+ "
") ∧
  (prev_time_printing p = Some 5400%Z → ev_duration e = Some "1h 30m").
Proof.
  intros Hp (_ & p' & Hp' & _ & He)%step_event start unreported.
  assert (p' = p) as -> by congruence.
  apply exit_event_fields in He as (_ & _ & _ & Hd). fold start in Hd.
  split_and!.
  - intros t Ht Hne. by rewrite Hd, Ht, duration_str_reported.
  - intros t0 Hun Hstart. by rewrite Hd, duration_str_fallback, Hstart.
  - intros Hun Hstart. rewrite Hd, duration_str_fallback, Hstart by done. done.
  - intros d Hdur. rewrite Hdur. unfold duration_line. simpl.
    assert (PyStr.truthy d = true) as ->; [|done].
    rewrite Hd in Hdur. unfold duration_str in Hdur.
    repeat case_match; simplify_eq; apply format_time_truthy.
  - intros Ht. rewrite Hd, Ht. by rewrite duration_str_reported.
Qed.

Lemma duration_priority_witness :
  let p := printing_record "cube.gcode" None (Some 5400%Z) in
  let σ := {| previous_states := {[ "MK4" := p ]};
              print_start_times := {[ "MK4" := 0%Z ]} |} in
  let r := {| r_printer := "MK4"; r_now := 7000000000; r_status := state_only "IDLE" |} in
  ∃ e, previous_states σ !! r_printer r = Some p ∧
       (step σ r).2 = Some e ∧
       ev_duration e = Some "1h 30m".
Proof.
  intros p σ r. eexists. split_and!; [reflexivity | reflexivity |].
  eapply (duration_priority σ r p); reflexivity.
Defined.

(** C2, as stated, fails when the previous record reports an elapsed time of
    zero.  A PrusaLink printer is first polled at the very start of a print
    ([time_printing] is 0) and found stopped 125 seconds later: the reported
    value is present and would give [0m], yet the duration comes from the
    clock.  Without a recorded start the same record gives no duration. *)
Lemma zero_reported_time_is_passed_over :
  let st := {| state := "PRINTING"; raw_bambu_state := None; progress := None;
               time_remaining := None; time_printing := Some 0%Z;
               job_data := None; layers := None |} in
  let rs := [ {| r_printer := "MK4"; r_now := 0; r_status := st |};
              {| r_printer := "MK4"; r_now := 125000000;
                 r_status := state_only "STOPPED" |} ] in
  let p := printing_record "Unknown file" None (Some 0%Z) in
  let σ := {| previous_states := {[ "MK4" := p ]}; print_start_times := ∅ |} in
  get_printer_status (prusa_answers "PRINTING" (Some 0%Z))
    "10.0.0.7" "key" "api_key" "maker" = Returns st ∧
  previous_states (run empty_store (take 1 rs)).1 !! "MK4" = Some p ∧
  format_time (prev_time_printing p) = "0m" ∧
  ev_duration <$> (run empty_store rs).2 = [Some "2m"] ∧
  (ev_duration <$> (step σ {| r_printer := "MK4"; r_now := 125000000;
                              r_status := state_only "STOPPED" |}).2) = Some None.
Proof. intros st rs p σ. split_and!; reflexivity. Qed.

(** ** Readings to be skipped *)

Section frame.
Implicit Types (σ : store) (r : reading) (rs : list reading) (n : string).

(** A reading leaves the entries of printer [n] alone, and sends nothing
    about it, when it is about another printer or its state is
    [UNKNOWN]. *)
Lemma step_skip σ r n :
  (r_printer r = n → state (r_status r) = "UNKNOWN") →
  previous_states (step σ r).1 !! n = previous_states σ !! n ∧
  print_start_times (step σ r).1 !! n = print_start_times σ !! n ∧
  ∀ e, (step σ r).2 = Some e → ev_printer e ≠ n.
Proof.
  intros Hskip. destruct (decide (r_printer r = n)) as [Heq|Hne].
  - rewrite step_unknown by auto. done.
  - destruct (step_frame σ r n Hne) as [Hprev Hstart]. split_and!; [done..|].
    intros e He. by rewrite (step_event_printer _ _ _ He).
Qed.

Lemma run_skip σ rs n :
  (∀ r, r ∈ rs → r_printer r = n → state (r_status r) = "UNKNOWN") →
  previous_states (run σ rs).1 !! n = previous_states σ !! n ∧
  print_start_times (run σ rs).1 !! n = print_start_times σ !! n ∧
  ∀ e, e ∈ (run σ rs).2 → ev_printer e ≠ n.
Proof.
  revert σ. induction rs as [|r rs IH]; intros σ Hskip.
  - simpl. split_and!; [done..|]. intros e He. by apply elem_of_nil in He.
  - rewrite run_cons. simpl.
    destruct (step_skip σ r n) as (Hprev & Hstart & Hev).
    { apply Hskip. left. }
    destruct (IH (step σ r).1) as (Hprev' & Hstart' & Hev').
    { intros r' Hin. apply Hskip. by right. }
    split_and!; [congruence..|].
    intros e [He|He]%elem_of_app; [|by apply Hev'].
    apply Hev. by destruct (step σ r).2; [apply list_elem_of_singleton in He as ->
                                       | apply elem_of_nil in He].
Qed.
End frame.

(** C3. A reading whose state is [UNKNOWN] changes neither store and sends
    no notification; over a whole cycle, a printer whose readings are all
    [UNKNOWN] keeps its previous record and its recorded start, and no
    notification of the cycle is about it. *)
Theorem unknown_reading_is_skipped (σ : store) (rs : list reading) (n : string) :
  (∀ r, r ∈ rs → r_printer r = n → state (r_status r) = "UNKNOWN") →
  (∀ r, r ∈ rs → r_printer r = n → step σ r = (σ, None)) ∧
  previous_states (run σ rs).1 !! n = previous_states σ !! n ∧
  print_start_times (run σ rs).1 !! n = print_start_times σ !! n ∧
  (∀ e, e ∈ (run σ rs).2 → ev_printer e ≠ n).
Proof.
  intros Hskip. split; [|by apply run_skip].
  intros r Hin Hn. apply step_unknown. auto.
Qed.

Lemma unknown_reading_is_skipped_witness :
  let p := printing_record "cube.gcode" None None in
  let σ := {| previous_states := {[ "X1C" := p ]};
              print_start_times := {[ "X1C" := 0%Z ]} |} in
  let rs := [ {| r_printer := "X1C"; r_now := 30000000; r_status := state_only "UNKNOWN" |};
              {| r_printer := "MK4"; r_now := 30000000; r_status := state_only "IDLE" |} ] in
  (∀ r, r ∈ rs → r_printer r = "X1C" → state (r_status r) = "UNKNOWN") ∧
  previous_states (run σ rs).1 !! "X1C" = Some p ∧
  print_start_times (run σ rs).1 !! "X1C" = Some 0%Z.
Proof.
  intros p σ rs.
  assert (Hskip : ∀ r, r ∈ rs → r_printer r = "X1C" → state (r_status r) = "UNKNOWN").
  { intros r Hin Hn. subst rs. split_in; [by subst r | by subst r]. }
  split; [exact Hskip|].
  destruct (unknown_reading_is_skipped σ rs "X1C" Hskip) as (_ & Hprev & Hstart & _).
  split; [exact Hprev | exact Hstart].
Defined.

(** ** The recorded start of a print *)

(** The recorded start is taken out of [print_start_times] on every
    reading that follows a [PRINTING] record and is not skipped, whether
    or not a notification is sent. *)
Lemma start_is_popped_after_printing (σ : store) (r : reading) (p : prev_record) :
  previous_states σ !! r_printer r = Some p →
  prev_state p = "PRINTING" →
  state (r_status r) ≠ "UNKNOWN" →
  print_start_times (step σ r).1 !! r_printer r = None.
Proof.
  intros Hp Hprint Hu. rewrite (step_was_printing _ _ p) by done. simpl.
  apply lookup_delete_eq.
Qed.

(** C4 does not hold of the program.  A Bambu printer with a recorded
    start goes from [PRINTING] to [PAUSED]: nothing is notified, and the
    recorded start is gone where it should have been kept.  The same
    happens on a second [PRINTING] reading, so a print seen over three
    polls ends with a notification that has no duration, while the same
    print seen over two polls has one. *)
Theorem paused_print_loses_its_start :
  let running := {| state := "PRINTING"; raw_bambu_state := Some "RUNNING";
                    progress := None; time_remaining := None; time_printing := None;
                    job_data := Some {| display_name := Some "cube_@ann.gcode.3mf";
                                        name := None |};
                    layers := None |} in
  let paused := {| state := "PAUSED"; raw_bambu_state := Some "PAUSE";
                   progress := None; time_remaining := None; time_printing := None;
                   job_data := None; layers := None |} in
  let finished := {| state := "IDLE"; raw_bambu_state := Some "FINISH";
                     progress := None; time_remaining := None; time_printing := None;
                     job_data := None; layers := None |} in
  let at_ (t : Z) st := {| r_printer := "X1C"; r_now := t; r_status := st |} in
  let σ := (run empty_store [at_ 0%Z running]).1 in
  print_start_times σ !! "X1C" = Some 0%Z ∧
  (step σ (at_ 30000000%Z paused)).2 = None ∧
  print_start_times (step σ (at_ 30000000%Z paused)).1 !! "X1C" = None ∧
  (step σ (at_ 30000000%Z running)).2 = None ∧
  print_start_times (step σ (at_ 30000000%Z running)).1 !! "X1C" = None ∧
  ev_duration <$>
    (run empty_store [at_ 0%Z running; at_ 30000000%Z running; at_ 60000000%Z finished]).2
    = [None] ∧
  ev_duration <$> (run empty_store [at_ 0%Z running; at_ 60000000%Z finished]).2
    = [Some "1m"].
Proof. intros running paused finished at_ σ. split_and!; reflexivity. Qed.

(** ** The job a notification is about *)

Lemma or_else_truthy (a : option string) (b : string) :
  PyStr.truthy b = true → PyStr.truthy (or_else a b) = true.
Proof. intros Hb. unfold or_else. destruct a as [s|]; [|done]. by destruct (PyStr.truthy s) eqn:?. Qed.

Lemma get_file_name_truthy (st : status) : PyStr.truthy (get_file_name st) = true.
Proof.
  unfold get_file_name. destruct (job_data st); [|done].
  by do 2 apply or_else_truthy.
Qed.

(** The record written for a [PRINTING] reading. *)
Lemma record_of_printing (st : status) :
  state st = "PRINTING" →
  record_of st =
    {| prev_state := "PRINTING";
       prev_file_name := Some (get_file_name st);
       prev_username := parse_username_from_filename (get_file_name st);
       prev_time_printing := time_printing st |}.
Proof.
  intros Hst. unfold record_of, current_file_name, current_username.
  rewrite decide_True by done. by rewrite get_file_name_truthy, Hst.
Qed.

(** C6. A notification is about the job of the previous record, not about
    what the current reading reports: its file name and user are those
    stored for the printer, which are the file name got from the reading
    before and the user parsed from that file name. *)
Theorem event_carries_previous_job (σ : store) (r : reading) (e : event) :
  (step σ r).2 = Some e →
  (∃ p, previous_states σ !! r_printer r = Some p ∧
        prev_state p = "PRINTING" ∧
        ev_printer e = r_printer r ∧
        ev_file e = prev_file_name p ∧
        ev_user e = prev_username p) ∧
  (∀ σ0 r0,
     σ = (step σ0 r0).1 →
     r_printer r0 = r_printer r →
     state (r_status r0) ≠ "UNKNOWN" →
     state (r_status r0) = "PRINTING" ∧
     ev_file e = Some (get_file_name (r_status r0)) ∧
     ev_user e = parse_username_from_filename (get_file_name (r_status r0))).
Proof.
  intros (_ & p & Hp & Hprint & He)%step_event.
  apply exit_event_fields in He as (Hn & Hfile & Huser & _).
  split; [by eauto 8|].
  intros σ0 r0 -> Hsame Hu.
  rewrite <- Hsame, step_stores in Hp by done. injection Hp as <-.
  simpl in Hprint. rewrite record_of_printing in Hfile, Huser by done. done.
Qed.

Lemma event_carries_previous_job_witness :
  let st0 := {| state := "PRINTING"; raw_bambu_state := None; progress := None;
                time_remaining := None; time_printing := Some 5400%Z;
                job_data := Some {| display_name := Some "bracket_v3_@bob.smith.gcode";
                                    name := None |};
                layers := None |} in
  let st := {| state := "FINISHED"; raw_bambu_state := None; progress := None;
               time_remaining := None; time_printing := Some 5430%Z;
               job_data := Some {| display_name := Some "next_@eve.gcode"; name := None |};
               layers := None |} in
  let σ := (step empty_store {| r_printer := "MK4"; r_now := 0; r_status := st0 |}).1 in
  let r := {| r_printer := "MK4"; r_now := 30000000; r_status := st |} in
  ∃ e, (step σ r).2 = Some e ∧
       ev_file e = Some "bracket_v3_@bob.smith.gcode" ∧
       ev_user e = Some "bob.smith".
Proof.
  intros st0 st σ r. eexists. split; [reflexivity|].
  refine (proj2 (proj2 (event_carries_previous_job σ r _ eq_refl) empty_store
                   {| r_printer := "MK4"; r_now := 0; r_status := st0 |}
                   eq_refl eq_refl _)).
  discriminate.
Defined.

(** ** The placeholder file name *)

(** The shape of what [get_bambu_status] returns. *)
Lemma get_bambu_status_cases (bambu_connections : gmap string bambu_client)
    (printer_name : string) (st : status) :
  get_bambu_status bambu_connections printer_name = Returns st →
  st = state_only "OFFLINE" ∨ st = state_only "UNKNOWN" ∨
  ∃ raw pc tr f ls,
    let printing_file :=
      bool_decide (dict_get state_map raw raw = "PRINTING") && is_truthy f in
    st = {| state := dict_get state_map raw raw;
            raw_bambu_state := Some raw;
            progress := pc;
            time_remaining := tr;
            time_printing := None;
            job_data := if printing_file
                        then Some {| display_name := f; name := None |} else None;
            layers := if printing_file then Some ls else None |}.
Proof.
  unfold get_bambu_status.
  destruct (bambu_connections !! printer_name) as [client|]; [|intros [= <-]; auto].
  destruct (get_state client) as [s|]; [|intros [= <-]; auto]; simpl.
  destruct (get_percentage client) as [pc|]; [|intros [= <-]; auto]; simpl.
  destruct (get_time client) as [tm|]; [|intros [= <-]; auto]; simpl.
  destruct (subtask_name client) as [sub|]; [|intros [= <-]; auto]; simpl.
  destruct (if is_truthy sub then Returns sub else client_get_file_name client)
    as [f|]; [|intros [= <-]; auto]; simpl.
  destruct (current_layer_num client) as [cl|]; [|intros [= <-]; auto]; simpl.
  destruct (total_layer_num client) as [tl|]; [|intros [= <-]; auto]; simpl.
  intros [= <-]. right. right. eauto 10.
Qed.

Lemma get_file_name_placeholder (st : status) :
  no_job_name st → get_file_name st = "Unknown file".
Proof.
  unfold no_job_name, get_file_name, or_else, is_truthy.
  destruct (job_data st) as [[[d|] [m|]]|]; simpl; try done.
  - by intros [-> ->].
  - by intros [-> _].
  - by intros [_ ->].
Qed.

(** C9. When a printer reports [PRINTING] and no job file name is to be
    had, the file name becomes the placeholder [Unknown file]: it is what
    the loop stores for the printer, with no user, and what the next
    notification about the printer names as the file.  Both adapters lead
    there: a PrusaLink poll whose job request fails, and a Bambu poll with
    no name to report, give a status without a job file name. *)
Theorem missing_file_name_becomes_placeholder (σ : store) (r : reading) :
  state (r_status r) = "PRINTING" →
  no_job_name (r_status r) →
  get_file_name (r_status r) = "Unknown file" ∧
  previous_states (step σ r).1 !! r_printer r
    = Some {| prev_state := "PRINTING";
              prev_file_name := Some "Unknown file";
              prev_username := None;
              prev_time_printing := time_printing (r_status r) |} ∧
  (∀ r' e, r_printer r' = r_printer r →
           (step (step σ r).1 r').2 = Some e →
           ev_file e = Some "Unknown file" ∧ ev_user e = None) ∧
  (∀ net ip api_key auth_type username d e,
     fetch (api_v1_status net) (request_to "/api/v1/status" ip api_key auth_type username)
       = Returns d →
     printer_state_of d = "PRINTING" →
     fetch (api_v1_job net) (request_to "/api/v1/job" ip api_key auth_type username)
       = Raises e →
     ∃ st, get_printer_status net ip api_key auth_type username = Returns st ∧
           state st = "PRINTING" ∧ no_job_name st) ∧
  (∀ bambu_connections printer_name st,
     get_bambu_status bambu_connections printer_name = Returns st →
     state st = "PRINTING" →
     no_job_name st ∨
     ∃ f, job_data st = Some {| display_name := Some f; name := None |} ∧
          PyStr.truthy f = true).
Proof.
  intros Hprint Hno.
  assert (Hfile : get_file_name (r_status r) = "Unknown file")
    by by apply get_file_name_placeholder.
  assert (Hu : state (r_status r) ≠ "UNKNOWN") by by rewrite Hprint.
  assert (Hrec : previous_states (step σ r).1 !! r_printer r
                 = Some {| prev_state := "PRINTING";
                           prev_file_name := Some "Unknown file";
                           prev_username := None;
                           prev_time_printing := time_printing (r_status r) |}).
  { rewrite step_stores, record_of_printing by done. by rewrite Hfile. }
  split_and!; [done | done | | |].
  - intros r' e Hsame (_ & p & Hp & _ & He)%step_event.
    rewrite Hsame, Hrec in Hp. injection Hp as <-.
    by apply exit_event_fields in He as (_ & -> & -> & _).
  - intros net ip api_key auth_type username d e Hstatus Hstate Hjob.
    eexists. unfold get_printer_status. rewrite Hstatus. simpl.
    rewrite decide_True by done. rewrite Hjob.
    split; [reflexivity|]. done.
  - intros conns nm st
      [-> | [-> | (raw & pc & tr & f & ls & ->)]]%get_bambu_status_cases;
      [done.. |].
    simpl. intros Hpr. rewrite (bool_decide_eq_true_2 _ Hpr). simpl.
    destruct f as [f|]; simpl; [|by left].
    destruct (PyStr.truthy f) eqn:Hf; [right; eauto | by left].
Qed.

Lemma missing_file_name_becomes_placeholder_witness :
  let st := {| state := "PRINTING"; raw_bambu_state := None; progress := None;
               time_remaining := None; time_printing := Some 60%Z;
               job_data := None; layers := None |} in
  let r := {| r_printer := "MK4"; r_now := 0; r_status := st |} in
  let r' := {| r_printer := "MK4"; r_now := 30000000; r_status := state_only "ERROR" |} in
  state (r_status r) = "PRINTING" ∧ no_job_name (r_status r) ∧
  ∃ e, (step (step empty_store r).1 r').2 = Some e ∧
       ev_file e = Some "Unknown file" ∧ ev_user e = None.
Proof.
  intros st r r'. split_and!; [reflexivity | exact I |].
  eexists. split; [reflexivity|].
  exact (proj1 (proj2 (proj2
           (missing_file_name_becomes_placeholder empty_store r eq_refl I)))
           r' _ eq_refl eq_refl).
Defined.

(** ** The adapters never raise *)

(** C7. [get_printer_status] always returns a status.  When the status
    request fails with a connection error or a timeout the state is
    [OFFLINE]; when it fails in another way the state is [UNKNOWN]; and when
    it gives [PRINTING] and the job request fails, the poll still returns
    [PRINTING], with no job data and so no file name in it. *)
Theorem get_printer_status_never_raises (net : network)
    (ip api_key auth_type username : string) :
  let status_call :=
    fetch (api_v1_status net) (request_to "/api/v1/status" ip api_key auth_type username) in
  let job_call :=
    fetch (api_v1_job net) (request_to "/api/v1/job" ip api_key auth_type username) in
  ∃ st,
    get_printer_status net ip api_key auth_type username = Returns st ∧
    (∀ e, status_call = Raises e →
          isinstance_ConnectionError e || isinstance_Timeout e = true →
          st = state_only "OFFLINE") ∧
    (∀ e, status_call = Raises e →
          isinstance_ConnectionError e || isinstance_Timeout e = false →
          st = state_only "UNKNOWN") ∧
    (∀ d e, status_call = Returns d →
            printer_state_of d = "PRINTING" →
            job_call = Raises e →
            state st = "PRINTING" ∧ job_data st = None ∧
            time_printing st = sj_job d ≫= jj_time_printing).
Proof.
  intros status_call job_call. unfold get_printer_status.
  fold status_call job_call.
  destruct status_call as [d|e] eqn:Hstatus; simpl.
  - destruct (decide (printer_state_of d = "PRINTING")) as [Hp|Hp].
    + destruct job_call as [j|e] eqn:Hjob.
      * eexists. split; [reflexivity|]. split_and!; intros; simplify_eq.
      * eexists. split; [reflexivity|]. split_and!; intros; simplify_eq. done.
    + eexists. split; [reflexivity|]. split_and!; intros; simplify_eq.
  - destruct (isinstance_ConnectionError e) eqn:Hc;
      [|destruct (isinstance_Timeout e) eqn:Ht];
      (eexists; split; [reflexivity|]);
      split_and!; intros; simplify_eq; try done;
      rewrite ?Hc, ?Ht in *; simpl in *; congruence.
Qed.

(** [get_bambu_status] always returns a status as well. *)
Lemma get_bambu_status_never_raises (bambu_connections : gmap string bambu_client)
    (printer_name : string) :
  ∃ st, get_bambu_status bambu_connections printer_name = Returns st.
Proof.
  unfold get_bambu_status. destruct (bambu_connections !! printer_name); [|eauto].
  case_match; eauto.
Qed.

(** ** Bambu printers report no elapsed print time *)

Lemma get_bambu_status_time_printing (bambu_connections : gmap string bambu_client)
    (printer_name : string) (st : status) :
  get_bambu_status bambu_connections printer_name = Returns st →
  time_printing st = None.
Proof.
  intros [-> | [-> | (raw & pc & tr & f & ls & ->)]]%get_bambu_status_cases; done.
Qed.

Section unreported.
Implicit Types (σ : store) (r : reading) (rs : list reading) (n : string).

Lemma no_reported_time_step σ r n :
  (r_printer r = n → time_printing (r_status r) = None) →
  no_reported_time n σ → no_reported_time n (step σ r).1.
Proof.
  intros Hr Hσ p. destruct (decide (r_printer r = n)) as [Heq|Hne].
  - destruct (decide (state (r_status r) = "UNKNOWN")) as [Hu|Hu].
    + rewrite step_unknown by done. apply Hσ.
    + rewrite <- Heq, step_stores by done. intros [= <-]. simpl. auto.
  - destruct (step_frame σ r n Hne) as [-> _]. apply Hσ.
Qed.

Lemma no_reported_time_run σ rs n :
  (∀ r, r ∈ rs → r_printer r = n → time_printing (r_status r) = None) →
  no_reported_time n σ → no_reported_time n (run σ rs).1.
Proof.
  revert σ. induction rs as [|r rs IH]; intros σ Hrs Hσ; [done|].
  rewrite run_cons. simpl. apply IH.
  - intros r' Hin. apply Hrs. by right.
  - apply no_reported_time_step; [|done]. apply Hrs. left.
Qed.

Lemma no_reported_time_duration σ r e :
  no_reported_time (r_printer r) σ →
  (step σ r).2 = Some e →
  ev_duration e =
    (λ t0, format_time (Some (elapsed_seconds (r_now r) t0))) <$>
      (print_start_times σ !! r_printer r).
Proof.
  intros Hσ (_ & p & Hp & _ & He)%step_event.
  apply exit_event_fields in He as (_ & _ & _ & ->).
  rewrite (Hσ p Hp). by apply duration_str_fallback; left.
Qed.
End unreported.

(** C10. A status from the Bambu adapter has no [time_printing].  So, from
    the start of the process on, every notification about a printer that
    is polled through that adapter takes its duration from the clock and
    the recorded start, or has none: the elapsed time of a previous record
    is never what it shows. *)
Theorem bambu_duration_never_reported (rs : list reading) (n : string) :
  (∀ r, r ∈ rs → r_printer r = n → from_bambu (r_status r)) →
  (∀ r, r ∈ rs → r_printer r = n → time_printing (r_status r) = None) ∧
  (∀ rs1 r rs2 e,
     rs = rs1 ++ r :: rs2 →
     r_printer r = n →
     (step (run empty_store rs1).1 r).2 = Some e →
     (∀ p, previous_states (run empty_store rs1).1 !! n = Some p →
           prev_time_printing p = None) ∧
     ev_duration e =
       (λ t0, format_time (Some (elapsed_seconds (r_now r) t0))) <$>
         (print_start_times (run empty_store rs1).1 !! n)).
Proof.
  intros Hrs.
  assert (Hnone : ∀ r, r ∈ rs → r_printer r = n → time_printing (r_status r) = None).
  { intros r Hin Hn. destruct (Hrs r Hin Hn) as (conns & nm & Hst).
    by eapply get_bambu_status_time_printing. }
  split; [done|].
  intros rs1 r rs2 e -> Hn He.
  assert (Hinv : no_reported_time n (run empty_store rs1).1).
  { apply no_reported_time_run; [|by intros p [=]].
    intros r' Hin. apply Hnone. apply elem_of_app. by left. }
  split; [done|].
  rewrite <- Hn in *. by apply no_reported_time_duration.
Qed.

Lemma bambu_poll_from_bambu (s : string) : from_bambu (bambu_poll s).
Proof.
  exists {[ "X1C" := bambu_cache s ]}, "X1C". unfold bambu_poll.
  by destruct (get_bambu_status_never_raises {[ "X1C" := bambu_cache s ]} "X1C")
    as [st ->].
Qed.

Lemma bambu_duration_never_reported_witness :
  let r1 := {| r_printer := "X1C"; r_now := 0;
               r_status := bambu_poll "GcodeState.RUNNING" |} in
  let r2 := {| r_printer := "X1C"; r_now := 60000000;
               r_status := bambu_poll "GcodeState.FINISH" |} in
  (∀ r, r ∈ [r1; r2] → r_printer r = "X1C" → from_bambu (r_status r)) ∧
  ∃ e, (step (run empty_store [r1]).1 r2).2 = Some e ∧
       ev_duration e = Some "1m".
Proof.
  intros r1 r2.
  assert (Hrs : ∀ r, r ∈ [r1; r2] → r_printer r = "X1C" → from_bambu (r_status r)).
  { intros r Hin _. split_in; subst r; apply bambu_poll_from_bambu. }
  split; [exact Hrs|]. eexists. split; [reflexivity|].
  exact (proj2 (proj2 (bambu_duration_never_reported [r1; r2] "X1C" Hrs)
                  [r1] r2 [] _ eq_refl eq_refl eq_refl)).
Defined.

(** ** Replaying a sequence of readings *)

Section replay.
Implicit Types (σ : store) (r : reading) (rs : list reading) (e : event).

Lemma duration_str_is_Some reported start now :
  is_Some (duration_str reported start now) ↔
  (∃ t, reported = Some t ∧ t ≠ 0%Z) ∨ is_Some start.
Proof.
  unfold duration_str. split.
  - destruct reported as [t|]; [case_bool_decide; [by eauto|]|];
      (destruct start; [by eauto|]); by intros [? [=]].
  - intros [(t & -> & Ht) | [t0 ->]].
    + by rewrite bool_decide_eq_true_2.
    + by case_match.
Qed.

Lemma exit_event_replay n now1 now2 st p start1 start2 :
  (is_Some start1 ↔ is_Some start2) →
  option_Forall2 same_but_duration
    (exit_event n now1 st p start1) (exit_event n now2 st p start2).
Proof.
  intros Hstart. unfold exit_event.
  repeat case_match; constructor; unfold same_but_duration; simpl;
    split_and!; try done; by rewrite !duration_str_is_Some, Hstart.
Qed.

Lemma exit_event_timed n now1 now2 st p start1 start2 t :
  prev_time_printing p = Some t → t ≠ 0%Z →
  exit_event n now1 st p start1 = exit_event n now2 st p start2.
Proof.
  intros Hp Ht. unfold exit_event. by rewrite Hp, !duration_str_reported.
Qed.

(** One step of two runs over the same polls. *)
Lemma step_replay σ1 σ2 r1 r2 :
  same_but_clock σ1 σ2 → same_poll r1 r2 →
  same_but_clock (step σ1 r1).1 (step σ2 r2).1 ∧
  option_Forall2 same_but_duration (step σ1 r1).2 (step σ2 r2).2 ∧
  (printing_is_timed σ1 → (step σ1 r1).2 = (step σ2 r2).2).
Proof.
  intros [Hprev Hstarts] [Hn Hst].
  destruct (step_cases σ1 r1) as [[Hu Hs] | [[Hu (p & Hp & Hpr)] | [Hu Hnp]]].
  - rewrite Hs, (step_unknown σ2 r2) by congruence.
    split_and!; [done | constructor | done].
  - rewrite (step_was_printing σ1 r1 p), (step_was_printing σ2 r2 p)
      by congruence.
    simpl. rewrite <- Hn, <- Hst. split_and!.
    + split; simpl; [by rewrite Hprev|]. intros n.
      destruct (decide (r_printer r1 = n)) as [->|Hne].
      * rewrite !lookup_delete_eq. done.
      * rewrite !lookup_delete_ne by done. apply Hstarts.
    + apply exit_event_replay, Hstarts.
    + intros Htimed. destruct (Htimed _ _ Hp Hpr) as (t & Ht & Hne).
      by eapply exit_event_timed.
  - rewrite (step_was_not_printing σ1 r1) by done.
    rewrite (step_was_not_printing σ2 r2);
      [|by rewrite <- Hprev, <- Hn | congruence].
    simpl. rewrite <- Hn, <- Hst. split_and!; [|constructor|done].
    split; simpl; [by rewrite Hprev|]. intros n.
    case_bool_decide; [|apply Hstarts].
    destruct (decide (r_printer r1 = n)) as [->|Hne].
    + rewrite !lookup_insert_eq. split; eauto.
    + rewrite !lookup_insert_ne by done. apply Hstarts.
Qed.

Lemma printing_is_timed_step σ r :
  reading_is_timed r → printing_is_timed σ → printing_is_timed (step σ r).1.
Proof.
  intros Hr Hσ n p. destruct (decide (r_printer r = n)) as [<-|Hne].
  - destruct (decide (state (r_status r) = "UNKNOWN")) as [Hu|Hu].
    + rewrite step_unknown by done. apply Hσ.
    + rewrite step_stores by done. intros [= <-]. simpl. apply Hr.
  - destruct (step_frame σ r n Hne) as [-> _]. apply Hσ.
Qed.

Lemma run_replay σ1 σ2 rs1 rs2 :
  same_but_clock σ1 σ2 → Forall2 same_poll rs1 rs2 →
  Forall2 same_but_duration (run σ1 rs1).2 (run σ2 rs2).2 ∧
  (printing_is_timed σ1 → Forall reading_is_timed rs1 →
   (run σ1 rs1).2 = (run σ2 rs2).2).
Proof.
  intros Hσ Hrs. revert σ1 σ2 Hσ.
  induction Hrs as [|r1 r2 rs1 rs2 Hr Hrs IH]; intros σ1 σ2 Hσ.
  - simpl. split; [constructor | done].
  - rewrite !run_cons. simpl.
    destruct (step_replay σ1 σ2 r1 r2 Hσ Hr) as (Hσ' & Hev & Heq).
    destruct (IH _ _ Hσ') as [Hevs Heqs]. split.
    + apply Forall2_app; [|done].
      destruct Hev; simpl; [by constructor | constructor].
    + intros Htimed [Ht1 Hts]%Forall_cons.
      rewrite Heq by done. f_equal. apply Heqs; [|done].
      by apply printing_is_timed_step.
Qed.
End replay.

(** C8, as the program has it.  Two runs from fresh stores over the same
    polls send the same notifications up to the durations that come from
    the clock: kinds, printers, file names and users are the same, and a
    duration is present in both or in neither.  The runs send the very same
    notifications when they read the same clock values, and also, whatever
    the clock, when every [PRINTING] reading reports an elapsed time that is
    not zero. *)
Theorem replay_same_events_up_to_clock (rs1 rs2 : list reading) :
  Forall2 same_poll rs1 rs2 →
  Forall2 same_but_duration (run empty_store rs1).2 (run empty_store rs2).2 ∧
  (r_now <$> rs1 = r_now <$> rs2 →
   (run empty_store rs1).2 = (run empty_store rs2).2) ∧
  (Forall reading_is_timed rs1 →
   (run empty_store rs1).2 = (run empty_store rs2).2).
Proof.
  intros Hrs.
  destruct (run_replay empty_store empty_store rs1 rs2) as [Hev Heq]; [done..|].
  split_and!; [done | | ].
  - intros Hnow. f_equal. f_equal. clear Hev Heq.
    revert Hnow. induction Hrs as [|r1 r2 rs1 rs2 [Hn Hst] Hrs IH]; [done|].
    simpl. intros [= Hnow Hnows]. rewrite IH by done. f_equal.
    destruct r1, r2; simpl in *; congruence.
  - apply Heq. by intros n p [=].
Qed.

Lemma bambu_print_same_poll (s1 s2 : Z) :
  Forall2 same_poll (bambu_print s1) (bambu_print s2).
Proof. repeat constructor. Qed.

Lemma replay_same_events_up_to_clock_witness :
  Forall2 same_poll (bambu_print 125) (bambu_print 30) ∧
  Forall2 same_but_duration
    (run empty_store (bambu_print 125)).2 (run empty_store (bambu_print 30)).2.
Proof.
  split; [apply bambu_print_same_poll|].
  apply (replay_same_events_up_to_clock (bambu_print 125) (bambu_print 30)).
  apply bambu_print_same_poll.
Defined.

(** C8, as stated, fails for the durations: the same two polls of a Bambu
    printer, replayed with the second poll 30 instead of 125 seconds after
    the first, give a notification with another duration. *)
Lemma replay_changes_clock_durations :
  r_printer <$> bambu_print 125 = r_printer <$> bambu_print 30 ∧
  r_status <$> bambu_print 125 = r_status <$> bambu_print 30 ∧
  ev_duration <$> (run empty_store (bambu_print 125)).2 = [Some "2m"] ∧
  ev_duration <$> (run empty_store (bambu_print 30)).2 = [Some "0m"] ∧
  (run empty_store (bambu_print 125)).2 ≠ (run empty_store (bambu_print 30)).2.
Proof. split_and!; [reflexivity.. | discriminate]. Qed.

(** ** The text of a duration *)

Section durations.
Implicit Types (s t : string) (a b m : Z).

Lemma format_time_minutes a :
  format_time (Some a) = minutes_label (Z.max 0 a / 60).
Proof.
  unfold format_time, minutes_label. destruct (Z.leb_spec a 0) as [Ha|Ha].
  - replace (Z.max 0 a) with 0%Z by lia. done.
  - replace (Z.max 0 a) with a by lia.
    replace (a / 60 / 60)%Z with (a / 3600)%Z by (Z.to_euclidean_division_equations; lia).
    replace ((a / 60) mod 60)%Z with ((a mod 3600) / 60)%Z
      by (Z.to_euclidean_division_equations; lia).
    destruct (0 <? a / 3600)%Z eqn:Hh; [done|].
    apply Z.ltb_ge in Hh. f_equal. f_equal.
    Z.to_euclidean_division_equations; lia.
Qed.

Lemma pretty_N_char_digit (x : N) : is_digit (pretty_N_char x) = true.
Proof. unfold pretty_N_char. by repeat case_match. Qed.

Lemma pretty_N_go_digits (x : N) s :
  all_digits s = true → all_digits (pretty_N_go x s) = true.
Proof.
  revert s. induction (N.lt_wf_0 x) as [x _ IH]; intros s Hs.
  destruct (decide (x = 0)%N) as [->|Hx]; [by rewrite pretty_N_go_0|].
  rewrite pretty_N_go_step by lia. apply IH.
  - apply N.div_lt; lia.
  - simpl. by rewrite pretty_N_char_digit.
Qed.

Lemma pretty_Z_digits m : (0 ≤ m)%Z → all_digits (pretty m) = true.
Proof.
  intros Hm. destruct m as [|p|p]; [done| |lia].
  unfold pretty, pretty_Z, pretty, pretty_positive, pretty, pretty_N.
  case_decide; [done|]. by apply pretty_N_go_digits.
Qed.

(** Two texts that start with digits and go on with a character that is no
    digit agree on the digits, on that character and on the rest. *)
Lemma digits_prefix_inj s1 s2 c1 c2 t1 t2 :
  all_digits s1 = true → all_digits s2 = true →
  is_digit c1 = false → is_digit c2 = false →
  s1 +:+ String c1 t1 = s2 +:+ String c2 t2 →
  s1 = s2 ∧ c1 = c2 ∧ t1 = t2.
Proof.
  revert s2. induction s1 as [|d1 s1 IH]; intros [|d2 s2] H1 H2 Hc1 Hc2 Heq;
    simpl in H1, H2.
  - by injection Heq as -> ->.
  - rewrite app_cons in Heq. injection Heq as -> _.
    apply andb_prop in H2 as [H2 _]. congruence.
  - rewrite app_cons in Heq. injection Heq as -> _.
    apply andb_prop in H1 as [H1 _]. congruence.
  - rewrite !app_cons in Heq. injection Heq as -> Heq.
    apply andb_prop in H1 as [_ H1]. apply andb_prop in H2 as [_ H2].
    destruct (IH s2) as (-> & -> & ->); done.
Qed.

Lemma minutes_label_inj m1 m2 :
  (0 ≤ m1)%Z → (0 ≤ m2)%Z → minutes_label m1 = minutes_label m2 → m1 = m2.
Proof.
  intros H1 H2. unfold minutes_label.
  assert (Hd : ∀ m, (0 ≤ m)%Z → all_digits (pretty m) = true)
    by apply pretty_Z_digits.
  destruct (Z.ltb_spec 0 (m1 / 60)) as [Hh1|Hh1];
    destruct (Z.ltb_spec 0 (m2 / 60)) as [Hh2|Hh2]; intros Heq.
  - apply digits_prefix_inj in Heq as (Hh & _ & Hrest);
      [|apply Hd; lia..|done|done].
    apply (inj pretty) in Hh.
    change (String " " (pretty (m1 `mod` 60)%Z +:+ "m"))
      with (" " +:+ pretty (m1 `mod` 60)%Z +:+ "m") in Hrest.
    injection Hrest as Hrest.
    apply digits_prefix_inj in Hrest as (Hm & _ & _);
      [|apply Hd; Z.to_euclidean_division_equations; lia..|done|done].
    apply (inj pretty) in Hm.
    rewrite (Z.div_mod m1 60), (Z.div_mod m2 60) by lia. lia.
  - apply digits_prefix_inj in Heq as (_ & [=] & _);
      [apply Hd; lia..|done|done].
  - apply digits_prefix_inj in Heq as (_ & [=] & _);
      [apply Hd; lia..|done|done].
  - apply digits_prefix_inj in Heq as (Hm & _ & _); [|apply Hd; lia..|done|done].
    by apply (inj pretty) in Hm.
Qed.
End durations.

(** X1. [format_time] shows whole minutes and nothing finer: two durations
    get the same text exactly when they have the same number of whole
    minutes, durations of zero or less counting as none. *)
Theorem format_time_same_whole_minutes (a b : Z) :
  format_time (Some a) = format_time (Some b) ↔
  (Z.max 0 a / 60 = Z.max 0 b / 60)%Z.
Proof.
  rewrite !format_time_minutes. split; [|by intros ->].
  apply minutes_label_inj; Z.to_euclidean_division_equations; lia.
Qed.

(** ** File names that name a user *)

Section suffixes.
Implicit Types (s t u e x : string).

Lemma lower_app s t : PyStr.lower (s +:+ t) = PyStr.lower s +:+ PyStr.lower t.
Proof. induction s as [|c s IH]; [done|]. rewrite app_cons. simpl. by rewrite IH, app_cons. Qed.

Lemma drop_app_plus s t k :
  PyStr.drop (String.length s + k) (s +:+ t) = PyStr.drop k t.
Proof. induction s as [|c s IH]; [done|]. by rewrite app_cons. Qed.

Lemma drop_app_le s t k :
  (k ≤ String.length s)%nat → PyStr.drop k (s +:+ t) = PyStr.drop k s +:+ t.
Proof.
  revert k. induction s as [|c s IH]; intros [|k] Hk; try done.
  - simpl in Hk. lia.
  - rewrite app_cons. simpl. apply IH. simpl in Hk. lia.
Qed.

Lemma length_drop k s :
  String.length (PyStr.drop k s) = (String.length s - k)%nat.
Proof. revert s. induction k as [|k IH]; intros [|c s]; simpl; auto. Qed.

Lemma take_app_length s t : PyStr.take (String.length s) (s +:+ t) = s.
Proof. induction s as [|c s IH]; [by destruct t|]. rewrite app_cons. simpl. by rewrite IH. Qed.

Lemma endswith_app s e : PyStr.endswith (s +:+ e) e = true.
Proof.
  unfold PyStr.endswith. rewrite length_app'. apply andb_true_intro. split.
  - apply Nat.leb_le. lia.
  - apply bool_decide_eq_true.
    replace (String.length s + String.length e - String.length e)%nat
      with (String.length s + 0)%nat by lia.
    by rewrite drop_app_plus.
Qed.

(** A suffix of [s +:+ e] either lies within [e] or ends with [e] and goes
    on into [s]. *)
Lemma endswith_app_inv s e x :
  PyStr.endswith (s +:+ e) x = true →
  ((String.length x ≤ String.length e)%nat ∧ PyStr.endswith e x = true) ∨
  ((String.length e < String.length x)%nat ∧ PyStr.endswith x e = true ∧
   PyStr.endswith s (PyStr.drop_last (String.length e) x) = true).
Proof.
  intros [Hlen Hdrop]%endswith_true. rewrite length_app' in Hlen, Hdrop.
  destruct (decide (String.length x ≤ String.length e)%nat) as [Hle|Hgt].
  - left. split; [done|]. unfold PyStr.endswith.
    apply andb_true_intro. split; [by apply Nat.leb_le|].
    apply bool_decide_eq_true. etrans; [|exact Hdrop].
    rewrite <- (drop_app_plus s e). f_equal. lia.
  - right. split; [lia|].
    pose (k := (String.length x - String.length e)%nat).
    pose (d := PyStr.drop (String.length s - k) s).
    assert (Hk : String.length d = k).
    { unfold d. rewrite length_drop. lia. }
    assert (Hx : x = d +:+ e).
    { unfold d. rewrite <- drop_app_le by lia. rewrite <- Hdrop at 1.
      f_equal. lia. }
    assert (Hcut : PyStr.drop_last (String.length e) x = d).
    { unfold PyStr.drop_last. rewrite Hx, length_app'.
      replace (String.length d + String.length e - String.length e)%nat
        with (String.length d) by lia.
      apply take_app_length. }
    split.
    + rewrite Hx. apply endswith_app.
    + rewrite Hcut. unfold PyStr.endswith.
      apply andb_true_intro. split; [apply Nat.leb_le; lia|].
      apply bool_decide_eq_true. by rewrite Hk.
Qed.
End suffixes.

Section user_names.
Implicit Types (s t u e : string).

Lemma parse_username_at_last_marker before after_at :
  ¬ occurs "_@" after_at →
  parse_username_from_filename (before +:+ "_@" +:+ after_at)
    = Some (strip_extension known_extensions after_at).
Proof.
  intros Hno. unfold parse_username_from_filename.
  assert (Hocc : occurs "_@" (before +:+ "_@" +:+ after_at))
    by by exists before, after_at.
  rewrite (proj2 (contains_occurs _ _) Hocc).
  destruct (split_marker_cases (before +:+ "_@" +:+ after_at))
    as [[Hno' _] | (b & a & f & m & Hfile & Hno' & Hsp)]; [done|].
  assert (a = after_at) as ->
    by (apply (after_last_marker_unique b a before after_at); congruence).
  by rewrite Hsp, last_piece_snoc.
Qed.

Lemma occurs_app_l p s t : occurs p s → occurs p (s +:+ t).
Proof.
  intros (a & b & ->). exists a, (b +:+ t). by rewrite !app_assoc'.
Qed.

Lemma occurs_lower_marker s : occurs "_@" s → occurs "_@" (PyStr.lower s).
Proof.
  intros (a & b & ->). exists (PyStr.lower a), (PyStr.lower b).
  by rewrite !lower_app.
Qed.

(** No marker arises where a text without one meets another that does not
    start with [@]. *)
Lemma not_occurs_app u e :
  ¬ occurs "_@" u → ¬ occurs "_@" e → (∀ t, e ≠ "@" +:+ t) →
  ¬ occurs "_@" (u +:+ e).
Proof.
  intros Hu He Hat. induction u as [|c u IH]; [done|].
  rewrite app_cons. intros [[t Ht] | Hocc]%occurs_cons.
  - injection Ht as -> Ht. destruct u as [|d u].
    + by apply (Hat t).
    + rewrite app_cons in Ht. injection Ht as -> _.
      apply Hu. by exists "", u.
  - apply IH; [|done]. intros (a & b & ->). apply Hu.
    exists (String c a), b. by rewrite app_cons.
Qed.

Lemma extension_no_marker e ext :
  ext ∈ known_extensions → PyStr.lower e = ext →
  ¬ occurs "_@" e ∧ ∀ t, e ≠ "@" +:+ t.
Proof.
  intros Hin Hlow. split.
  - intros Hocc%occurs_lower_marker. rewrite Hlow in Hocc.
    apply contains_occurs in Hocc. unfold known_extensions in Hin.
    split_in; subst ext; discriminate.
  - intros t ->. change ("@" +:+ t) with (String "@" t) in Hlow. simpl in Hlow.
    unfold known_extensions in Hin. split_in; subst ext; discriminate.
Qed.

Lemma drop_last_app u e k :
  String.length e = k → PyStr.drop_last k (u +:+ e) = u.
Proof.
  intros <-. unfold PyStr.drop_last. rewrite length_app'.
  replace (String.length u + String.length e - String.length e)%nat
    with (String.length u) by lia.
  apply take_app_length.
Qed.

(** What the loop over the known extensions cuts off is nothing or a known
    extension in some mix of cases. *)
Lemma strip_extension_tail exts s :
  ∃ tail, s = strip_extension exts s +:+ tail ∧
          (tail = "" ∨ PyStr.lower tail ∈ exts).
Proof.
  induction exts as [|ext exts IH]; simpl.
  - exists "". split; [|by left].
    clear. induction s as [|c s IH]; [done|]. by rewrite app_cons, <- IH.
  - destruct (PyStr.endswith (PyStr.lower s) ext) eqn:Hm.
    + destruct (drop_last_endswith _ _ Hm) as (tail & Hs & Hlow).
      exists tail. split; [done|]. right. rewrite Hlow. left.
    + destruct IH as (tail & Hs & Htail). exists tail. split; [done|].
      destruct Htail as [->|Hin]; [by left | right; by right].
Qed.
End user_names.

Section round_trip.
Implicit Types (u e ext : string).

(** A known extension after a user name is what the loop cuts off, unless
    the name itself ends in [.gcode] and the extension is [.3mf], which
    together read as [.gcode.3mf]. *)
Lemma strip_extension_app u e ext :
  ext ∈ known_extensions → PyStr.lower e = ext →
  (ext = ".3mf" → PyStr.endswith (PyStr.lower u) ".gcode" = false) →
  strip_extension known_extensions (u +:+ e) = u.
Proof.
  intros Hin Hlow Hside.
  assert (Hlen : String.length e = String.length ext)
    by by rewrite <- Hlow, length_lower.
  assert (Hno : ∀ x, x ≠ ext →
            (PyStr.endswith ext x = false) →
            (PyStr.endswith x ext = true →
             PyStr.endswith (PyStr.lower u) (PyStr.drop_last (String.length ext) x)
               = false) →
            PyStr.endswith (PyStr.lower (u +:+ e)) x = false).
  { intros x Hne Hshort Hlong. rewrite lower_app, Hlow.
    destruct (PyStr.endswith (PyStr.lower u +:+ ext) x) eqn:Hm; [|done].
    apply endswith_app_inv in Hm as [[_ Hm] | (_ & Hm & Hm')]; [congruence|].
    rewrite Hlong in Hm'; done. }
  assert (Hyes : PyStr.endswith (PyStr.lower (u +:+ e)) ext = true)
    by (rewrite lower_app, Hlow; apply endswith_app).
  unfold known_extensions in Hin. unfold known_extensions, strip_extension.
  split_in; subst ext;
    repeat (rewrite Hno by
              solve [ done | intros [=]
                    | let H := fresh in intros H; vm_compute in H; discriminate
                    | intros _; by apply Hside ]);
    rewrite Hyes; by apply drop_last_app.
Qed.
End round_trip.

(** X2. Naming a file for a user works: for any base name, any user name
    without [_@] in it and any known extension in any mix of cases,
    [parse_username_from_filename] on [base_@user.ext] gives back the user
    name as written, dots included.  The one exception is a user name
    ending in [.gcode] before [.3mf], which would read as [.gcode.3mf]. *)
Theorem username_round_trip (base u e : string) :
  ¬ occurs "_@" u →
  PyStr.lower e ∈ known_extensions →
  (PyStr.lower e = ".3mf" → PyStr.endswith (PyStr.lower u) ".gcode" = false) →
  parse_username_from_filename (base +:+ "_@" +:+ u +:+ e) = Some u.
Proof.
  intros Hu Hin Hside.
  destruct (extension_no_marker e (PyStr.lower e) Hin eq_refl) as [He Hat].
  rewrite parse_username_at_last_marker by by apply not_occurs_app.
  f_equal. by apply (strip_extension_app u e (PyStr.lower e)).
Qed.

Lemma username_round_trip_witness :
  ¬ occurs "_@" "riley.smith" ∧
  PyStr.lower ".GCode" ∈ known_extensions ∧
  parse_username_from_filename ("gear v2" +:+ "_@" +:+ "riley.smith" +:+ ".GCode")
    = Some "riley.smith".
Proof.
  assert (Hu : ¬ occurs "_@" "riley.smith") by by apply not_occurs_contains.
  assert (Hin : PyStr.lower ".GCode" ∈ known_extensions)
    by (unfold known_extensions; solve_in).
  split_and!; [exact Hu | exact Hin |].
  apply (username_round_trip "gear v2" "riley.smith" ".GCode" Hu Hin).
  intros [=].
Defined.

(** X3. A user name that [parse_username_from_filename] returns stands in
    the file name right after a [_@], holds no [_@] itself, and is followed
    there by nothing or by a known extension in some mix of cases and then
    the end of the name. *)
Theorem username_is_the_text_after_the_marker (file_name u : string) :
  parse_username_from_filename file_name = Some u →
  ¬ occurs "_@" u ∧
  ∃ before tail,
    file_name = before +:+ "_@" +:+ u +:+ tail ∧
    (tail = "" ∨ PyStr.lower tail ∈ known_extensions).
Proof.
  unfold parse_username_from_filename.
  destruct (PyStr.contains "_@" file_name) eqn:Hc; [|done]. cbn [negb].
  destruct (split_marker_cases file_name)
    as [[Hno _] | (b & a & f & m & Hfile & Hno & Hsp)].
  { by apply not_occurs_contains in Hno; congruence. }
  rewrite Hsp, last_piece_snoc. intros Hu.
  assert (strip_extension known_extensions a = u) as <- by congruence.
  destruct (strip_extension_tail known_extensions a) as (tail & Ha & Htail).
  split.
  - intros Hocc. apply Hno. rewrite Ha. by apply occurs_app_l.
  - exists b, tail. by rewrite <- Ha.
Qed.

Lemma username_is_the_text_after_the_marker_witness :
  parse_username_from_filename "a_@b_@Carol.3MF" = Some "Carol" ∧
  ∃ before tail,
    "a_@b_@Carol.3MF" = before +:+ "_@" +:+ "Carol" +:+ tail ∧
    (tail = "" ∨ PyStr.lower tail ∈ known_extensions).
Proof.
  split; [reflexivity|].
  apply (username_is_the_text_after_the_marker "a_@b_@Carol.3MF" "Carol" eq_refl).
Defined.

(** ** What the adapters hand on *)

Section adapters.
Implicit Types (net : network) (st : status) (p : printer).

Lemma get_printer_status_returns net ip api_key auth_type username :
  ∃ st, get_printer_status net ip api_key auth_type username = Returns st.
Proof.
  unfold get_printer_status.
  destruct (fetch (api_v1_status net) _) as [d|e]; simpl.
  - case_decide; [|eauto]. destruct (fetch (api_v1_job net) _); eauto.
  - repeat case_match; eauto.
Qed.

Lemma get_printer_status_raw net ip api_key auth_type username st :
  get_printer_status net ip api_key auth_type username = Returns st →
  raw_bambu_state st = None.
Proof.
  unfold get_printer_status.
  destruct (fetch (api_v1_status net) _) as [d|e]; simpl.
  - case_decide; [|by intros [= <-]].
    destruct (fetch (api_v1_job net) _); by intros [= <-].
  - repeat case_match; by intros [= <-].
Qed.

Lemma get_bambu_status_raw conns nm st raw :
  get_bambu_status conns nm = Returns st →
  raw_bambu_state st = Some raw →
  state st = dict_get state_map raw raw.
Proof.
  intros [-> | [-> | (raw' & pc & tr & f & ls & ->)]]%get_bambu_status_cases;
    [done..|].
  simpl. by intros [= ->].
Qed.

(** The state of a polled status is what the Bambu state table makes of
    its raw state, when it has one. *)
Lemma polled_raw st raw :
  polled st → raw_bambu_state st = Some raw →
  state st = dict_get state_map raw raw.
Proof.
  intros (net & conns & p & Hpoll) Hraw. unfold poll_printer in Hpoll.
  case_decide.
  - by eapply get_bambu_status_raw.
  - apply get_printer_status_raw in Hpoll. congruence.
Qed.

Lemma poll_printer_returns net conns p :
  ∃ st, poll_printer net conns p = Returns st.
Proof.
  unfold poll_printer. case_decide.
  - apply get_bambu_status_never_raises.
  - apply get_printer_status_returns.
Qed.
End adapters.


(** X5. On a status that [poll_printer] returned, the raw Bambu state
    adds nothing to the decision: after a [PRINTING] record a completion is
    notified exactly when the state is [IDLE], [READY] or [FINISHED], a
    failure exactly when it is [ERROR] or [STOPPED], and nothing is notified
    otherwise.  A raw [FINISH] always comes with the state [IDLE]. *)
Theorem polled_exit_by_state (σ : store) (r : reading) (p : prev_record) :
  polled (r_status r) →
  previous_states σ !! r_printer r = Some p →
  prev_state p = "PRINTING" →
  (raw_bambu_state (r_status r) = Some "FINISH" → state (r_status r) = "IDLE") ∧
  ((∃ e, (step σ r).2 = Some e ∧ ev_kind e = Completed) ↔
     state (r_status r) ∈ ["IDLE"; "READY"; "FINISHED"]) ∧
  ((∃ e, (step σ r).2 = Some e ∧ ev_kind e = Failed) ↔
     state (r_status r) ∈ ["ERROR"; "STOPPED"]) ∧
  (state (r_status r) ∉ ["IDLE"; "READY"; "FINISHED"; "ERROR"; "STOPPED"] →
     (step σ r).2 = None).
Proof.
  intros Hpolled Hp Hprint.
  assert (Hfinish : raw_bambu_state (r_status r) = Some "FINISH" →
                    state (r_status r) = "IDLE").
  { intros Hraw. by rewrite (polled_raw _ _ Hpolled Hraw). }
  split; [done|].
  change ["IDLE"; "READY"; "FINISHED"] with completed_states.
  change ["ERROR"; "STOPPED"] with failed_states.
  destruct (decide (state (r_status r) ∈ completed_states)) as [Hc|Hc].
  { assert (Hu : state (r_status r) ≠ "UNKNOWN") by (intros Hu; rewrite Hu in Hc; solve_in).
    rewrite (step_was_printing _ _ p) by done. simpl.
    rewrite exit_event_completed by auto. split_and!.
    - split; [done | eauto].
    - split; [by intros (e & [= <-] & ?) | intros Hf; solve_in].
    - intros Hnot. destruct Hnot. unfold completed_states, failed_states in *.
      rewrite !elem_of_cons in Hc. rewrite !elem_of_cons. tauto. }
  assert (Hraw : raw_bambu_state (r_status r) ≠ Some "FINISH").
  { intros Hraw. apply Hc. rewrite (Hfinish Hraw). unfold completed_states. solve_in. }
  destruct (decide (state (r_status r) ∈ failed_states)) as [Hf|Hf].
  - assert (Hu : state (r_status r) ≠ "UNKNOWN") by (intros Hu; rewrite Hu in Hf; solve_in).
    rewrite (step_was_printing _ _ p) by done. simpl.
    rewrite exit_event_failed by done. split_and!.
    + split; [by intros (e & [= <-] & ?) | done].
    + split; [done | eauto].
    + intros Hnot. destruct Hnot. unfold completed_states, failed_states in *.
      rewrite !elem_of_cons in Hf. rewrite !elem_of_cons. tauto.
  - assert (Hnone : (step σ r).2 = None).
    { destruct (decide (state (r_status r) = "UNKNOWN")) as [Hu|Hu].
      - by rewrite step_unknown.
      - rewrite (step_was_printing _ _ p) by done. simpl.
        by apply exit_event_none. }
    rewrite Hnone. split_and!; [| |done].
    + split; [by intros (e & ? & _) | done].
    + split; [by intros (e & ? & _) | done].
Qed.

Lemma polled_exit_by_state_witness :
  let p := printing_record "cube.gcode" None (Some 5400%Z) in
  let σ := {| previous_states := {[ "MK4" := p ]}; print_start_times := ∅ |} in
  let r := {| r_printer := "MK4"; r_now := 0; r_status := state_only "READY" |} in
  polled (r_status r) ∧
  previous_states σ !! r_printer r = Some p ∧
  prev_state p = "PRINTING" ∧
  ∃ e, (step σ r).2 = Some e ∧ ev_kind e = Completed.
Proof.
  intros p σ r.
  assert (Hpolled : polled (r_status r)).
  { exists (prusa_answers "READY" None), ∅,
      {| p_name := "MK4"; p_type := None; p_ip := "10.0.0.7";
         p_api_key := Some "key"; p_password := None;
         p_auth_type := None; p_username := None |}.
    reflexivity. }
  split_and!; [exact Hpolled | reflexivity | reflexivity |].
  apply (polled_exit_by_state σ r p Hpolled eq_refl eq_refl). solve_in.
Defined.

(** X6. How a failed PrusaLink status request reaches the stores.  When it
    fails with anything but a connection error or a timeout (a refused API
    key, a body that is no JSON), the loop changes nothing for the printer
    and sends nothing.  When the printer cannot be reached, the loop sends
    nothing either, and overwrites the printer's record with [OFFLINE], no
    file name and no user. *)
Theorem failed_status_request_effect (net : network)
    (ip api_key auth_type username : string) (e : exn) (st : status)
    (σ : store) (n : string) (now : Z) :
  fetch (api_v1_status net) (request_to "/api/v1/status" ip api_key auth_type username)
    = Raises e →
  get_printer_status net ip api_key auth_type username = Returns st →
  let r := {| r_printer := n; r_now := now; r_status := st |} in
  (isinstance_ConnectionError e || isinstance_Timeout e = false →
     step σ r = (σ, None)) ∧
  (isinstance_ConnectionError e || isinstance_Timeout e = true →
     (step σ r).2 = None ∧
     previous_states (step σ r).1 !! n
       = Some {| prev_state := "OFFLINE"; prev_file_name := None;
                 prev_username := None; prev_time_printing := None |}).
Proof.
  intros Hfetch Hst r. unfold get_printer_status in Hst.
  rewrite Hfetch in Hst. simpl in Hst. split.
  - intros [Hc Ht]%orb_false_elim. rewrite Hc, Ht in Hst.
    injection Hst as <-. by apply step_unknown.
  - intros Hoff.
    assert (st = state_only "OFFLINE") as ->.
    { destruct (isinstance_ConnectionError e); [congruence|].
      simpl in Hoff. rewrite Hoff in Hst. congruence. }
    split.
    + destruct (step σ r).2 as [ev|] eqn:Hev; [|done].
      apply step_event in Hev as (_ & p & _ & _ & Hev).
      by rewrite exit_event_none in Hev by solve_in.
    + by apply (step_stores σ r).
Qed.

Lemma failed_status_request_effect_witness :
  let net := {| api_v1_status := λ _, Raises HTTPError;
                api_v1_job := λ _, Raises HTTPError |} in
  let p := printing_record "cube.gcode" None (Some 5400%Z) in
  let σ := {| previous_states := {[ "MK4" := p ]}; print_start_times := ∅ |} in
  fetch (api_v1_status net) (request_to "/api/v1/status" "10.0.0.7" "key" "api_key" "maker")
    = Raises HTTPError ∧
  get_printer_status net "10.0.0.7" "key" "api_key" "maker"
    = Returns (state_only "UNKNOWN") ∧
  step σ {| r_printer := "MK4"; r_now := 0; r_status := state_only "UNKNOWN" |}
    = (σ, None).
Proof.
  intros net p σ. split_and!; [reflexivity | reflexivity |].
  apply (failed_status_request_effect net "10.0.0.7" "key" "api_key" "maker"
           HTTPError (state_only "UNKNOWN") σ "MK4" 0%Z eq_refl eq_refl).
  reflexivity.
Defined.

#[local] Arguments dict_get : simpl never.

(** X7. The file name of a Bambu print.  When every getter of the cache
    returns, the poll returns a status whose remaining time is the minutes
    of the cache times sixty, and, when its state is [PRINTING], the file
    name that the loop takes from it is the subtask name, else the file
    name of the cache, else [Unknown file], an empty name counting as
    none.  A status in another state has no job data. *)
Theorem bambu_file_name (bambu_connections : gmap string bambu_client)
    (printer_name : string) (s : option string) (pc tm : option Z)
    (sub cf : option string) (cl tl : Z) :
  bambu_connections !! printer_name
    = Some {| get_state := Returns s; get_percentage := Returns pc;
              get_time := Returns tm; subtask_name := Returns sub;
              client_get_file_name := Returns cf;
              current_layer_num := Returns cl; total_layer_num := Returns tl |} →
  ∃ st,
    get_bambu_status bambu_connections printer_name = Returns st ∧
    time_remaining st = (λ m, (m * 60)%Z) <$> tm ∧
    (state st = "PRINTING" →
       current_file_name st = Some (or_else sub (or_else cf "Unknown file"))) ∧
    (state st ≠ "PRINTING" → job_data st = None).
Proof.
  intros Hconn. unfold get_bambu_status. rewrite Hconn. simpl.
  assert (Hfile : ∃ f, (if is_truthy sub then Returns sub else Returns cf) = Returns f ∧
                       or_else f "Unknown file" = or_else sub (or_else cf "Unknown file") ∧
                       (is_truthy f = true → f = Some (or_else f "Unknown file"))).
  { destruct sub as [[|c u]|], cf as [[|c' u']|]; simpl;
      eexists; (split_and!; [reflexivity | reflexivity | done]). }
  destruct Hfile as (f & -> & Hf & Hsome). simpl.
  eexists. split; [reflexivity|]. simpl. split_and!; [done| |].
  - intros Hpr. unfold current_file_name, get_file_name. simpl.
    rewrite decide_True by done. rewrite (bool_decide_eq_true_2 _ Hpr). simpl.
    rewrite <- Hf. destruct (is_truthy f) eqn:Ht; simpl.
    + rewrite (Hsome eq_refl) at 1. simpl.
      assert (PyStr.truthy (or_else f "Unknown file") = true) as ->; [|done].
      by apply or_else_truthy.
    + unfold or_else. destruct f as [f|]; [|done]. simpl in Ht. by rewrite Ht.
  - intros Hpr. by rewrite (bool_decide_eq_false_2 _ Hpr).
Qed.

Lemma bambu_file_name_witness :
  let client := {| get_state := Returns (Some "GcodeState.PREPARE");
                   get_percentage := Returns (Some 0%Z);
                   get_time := Returns (Some 95%Z);
                   subtask_name := Returns (Some "");
                   client_get_file_name := Returns (Some "vase_@kim.gcode.3mf");
                   current_layer_num := Returns 0%Z;
                   total_layer_num := Returns 120%Z |} in
  ({[ "X1C" := client ]} : gmap string bambu_client) !! "X1C" = Some client ∧
  ∃ st,
    get_bambu_status {[ "X1C" := client ]} "X1C" = Returns st ∧
    time_remaining st = Some 5700%Z ∧
    (state st = "PRINTING" → current_file_name st = Some "vase_@kim.gcode.3mf").
Proof.
  intros client.
  assert (Hconn : ({[ "X1C" := client ]} : gmap string bambu_client) !! "X1C"
                  = Some client) by reflexivity.
  split; [exact Hconn|].
  destruct (bambu_file_name {[ "X1C" := client ]} "X1C"
              (Some "GcodeState.PREPARE") (Some 0%Z) (Some 95%Z)
              (Some "") (Some "vase_@kim.gcode.3mf") 0%Z 120%Z Hconn)
    as (st & Hst & Htime & Hfile & _).
  exists st. split_and!; [exact Hst | exact Htime | exact Hfile].
Defined.

(** ** Prints that end unseen *)

(** X8. A print whose end is not seen right after [PRINTING] is never
    notified.  When the reading after a [PRINTING] record is in another
    state that ends nothing ([PAUSED], [OFFLINE], [ATTENTION], [BUSY], ...),
    nothing is sent, the recorded start is dropped, and whatever the next
    reading of the printer says, a completion or a failure included,
    nothing is sent then either. *)
Theorem print_end_unseen_is_never_notified (σ : store) (r r' : reading)
    (p : prev_record) :
  previous_states σ !! r_printer r = Some p →
  prev_state p = "PRINTING" →
  state (r_status r) ∉
    ["UNKNOWN"; "PRINTING"; "IDLE"; "READY"; "FINISHED"; "ERROR"; "STOPPED"] →
  raw_bambu_state (r_status r) ≠ Some "FINISH" →
  r_printer r' = r_printer r →
  (step σ r).2 = None ∧
  print_start_times (step σ r).1 !! r_printer r = None ∧
  (step (step σ r).1 r').2 = None.
Proof.
  intros Hp Hprint Hstate Hraw Hsame.
  rewrite !not_elem_of_cons in Hstate.
  destruct Hstate as (Hu & Hpr & Hi & Hre & Hfi & Her & Hst & _).
  assert (Hstored : previous_states (step σ r).1 !! r_printer r
                    = Some (record_of (r_status r))) by by apply step_stores.
  split_and!.
  - rewrite (step_was_printing _ _ p) by done. simpl.
    apply exit_event_none; [|done|]; unfold completed_states, failed_states;
      rewrite !not_elem_of_cons; split_and!; try done; apply not_elem_of_nil.
  - by apply (start_is_popped_after_printing σ r p).
  - destruct (step (step σ r).1 r').2 as [e|] eqn:He; [|done].
    apply step_event in He as (_ & p' & Hp' & Hprint' & _).
    rewrite Hsame, Hstored in Hp'. injection Hp' as <-. done.
Qed.

Lemma print_end_unseen_is_never_notified_witness :
  let p := printing_record "cube.gcode" (Some "ann") (Some 5400%Z) in
  let σ := {| previous_states := {[ "MK4" := p ]};
              print_start_times := {[ "MK4" := 0%Z ]} |} in
  let r := {| r_printer := "MK4"; r_now := 30000000; r_status := state_only "PAUSED" |} in
  let r' := {| r_printer := "MK4"; r_now := 60000000; r_status := state_only "FINISHED" |} in
  previous_states σ !! r_printer r = Some p ∧
  (run σ [r; r']).2 = [].
Proof.
  intros p σ r r'. split; [reflexivity|].
  assert (Hstate : state (r_status r) ∉
            ["UNKNOWN"; "PRINTING"; "IDLE"; "READY"; "FINISHED"; "ERROR"; "STOPPED"])
    by solve_in.
  assert (Hraw : raw_bambu_state (r_status r) ≠ Some "FINISH") by done.
  destruct (print_end_unseen_is_never_notified σ r r' p eq_refl eq_refl Hstate Hraw eq_refl)
    as (H1 & _ & H2).
  rewrite !run_cons. simpl. by rewrite H1, H2.
Defined.

(** ** Notifications counted *)

Section counting.
Implicit Types (σ : store) (r : reading) (rs : list reading) (n : string).

(** 1 when the record of printer [n] says [PRINTING], else 0. *)
Let printing_now n σ : nat :=
  match previous_states σ !! n with
  | Some p => if decide (prev_state p = "PRINTING") then 1 else 0
  | None => 0
  end.

Lemma notified_app n evs1 evs2 :
  notified n (evs1 ++ evs2) = (notified n evs1 + notified n evs2)%nat.
Proof. unfold notified. by rewrite filter_app, length_app. Qed.

Lemma seen_printing_cons n r rs :
  seen_printing n (r :: rs) =
    ((if decide (r_printer r = n ∧ state (r_status r) = "PRINTING") then 1 else 0)
     + seen_printing n rs)%nat.
Proof. unfold seen_printing. rewrite filter_cons. by case_decide. Qed.

Lemma notified_step n σ r :
  (notified n (option_list (step σ r).2) + printing_now n (step σ r).1
   ≤ printing_now n σ
     + (if decide (r_printer r = n ∧ state (r_status r) = "PRINTING") then 1 else 0))%nat.
Proof.
  unfold printing_now. destruct (decide (r_printer r = n)) as [<-|Hne].
  - assert (Hev : (notified (r_printer r) (option_list (step σ r).2) ≤ 1)%nat).
    { unfold notified. destruct (step σ r).2; simpl; [|lia].
      rewrite filter_cons, filter_nil. case_decide; simpl; lia. }
    destruct (step_cases σ r) as [[Hu Hs] | [[Hu (p & Hp & Hpr)] | [Hu Hnp]]].
    + rewrite Hs. simpl. unfold notified. simpl. lia.
    + rewrite step_stores by done. rewrite Hp, (decide_True _ _ Hpr).
      unfold record_of. simpl.
      destruct (decide (state (r_status r) = "PRINTING")) as [Hs|Hs].
      * rewrite (decide_True (P := _ ∧ _)) by done. lia.
      * lia.
    + assert (notified (r_printer r) (option_list (step σ r).2) = 0%nat) as ->
        by by rewrite step_was_not_printing.
      rewrite step_stores by done. unfold record_of. simpl.
      destruct (decide (state (r_status r) = "PRINTING")) as [Hs|Hs].
      * rewrite (decide_True (P := _ ∧ _)) by done. lia.
      * lia.
  - destruct (step_frame σ r n Hne) as [-> _].
    assert (notified n (option_list (step σ r).2) = 0%nat) as ->.
    { unfold notified. destruct (step σ r).2 as [e|] eqn:He; [|done]. simpl.
      rewrite filter_cons, filter_nil.
      rewrite decide_False; [done|]. by rewrite (step_event_printer _ _ _ He). }
    lia.
Qed.

Lemma notified_run n σ rs :
  (notified n (run σ rs).2 ≤ printing_now n σ + seen_printing n rs)%nat.
Proof.
  revert σ. induction rs as [|r rs IH]; intros σ.
  - simpl. unfold notified. simpl. lia.
  - rewrite run_cons, seen_printing_cons. simpl. rewrite notified_app.
    specialize (IH (step σ r).1). pose proof (notified_step n σ r). lia.
Qed.
End counting.

(** X9. No printer is notified about more often than it was seen
    printing: over any sequence of readings from the start of the process,
    the notifications about a printer are at most as many as its readings
    in state [PRINTING].  A printer that is never seen printing is never
    notified about, whatever states it goes through. *)
Theorem notifications_bounded_by_prints (rs : list reading) (n : string) :
  (notified n (run empty_store rs).2 ≤ seen_printing n rs)%nat.
Proof. apply (notified_run n empty_store rs). Qed.

(** ** What the stores always look like *)

Section invariants.
Implicit Types (σ : store) (r : reading) (rs : list reading) (p : prev_record).

Lemma record_of_ok (st : status) : state st ≠ "UNKNOWN" → record_ok (record_of st).
Proof.
  intros Hu. unfold record_ok, record_of, current_file_name. simpl.
  split_and!; [done|..].
  - intros Hpr. rewrite decide_True by done. eauto using get_file_name_truthy.
  - intros Hpr. by rewrite decide_False.
  - case_decide; [|done]. simpl. by rewrite get_file_name_truthy.
Qed.

Lemma store_ok_empty : store_ok empty_store.
Proof. intros n. split; [by intros p [=] | by intros [t [=]]]. Qed.

Lemma store_ok_step σ r : store_ok σ → store_ok (step σ r).1.
Proof.
  intros Hσ n. destruct (decide (r_printer r = n)) as [<-|Hne].
  - destruct (step_cases σ r) as [[Hu Hs] | [[Hu (p & Hp & Hpr)] | [Hu Hnp]]].
    + rewrite Hs. apply Hσ.
    + rewrite step_stores by done. split.
      * intros ? [= <-]. by apply record_of_ok.
      * rewrite (start_is_popped_after_printing σ r p) by done. by intros [t [=]].
    + rewrite step_stores by done. split.
      * intros ? [= <-]. by apply record_of_ok.
      * rewrite step_was_not_printing by done. simpl. case_bool_decide as Hs.
        -- intros _. eauto.
        -- intros Hstart. destruct (Hσ (r_printer r)) as [_ Hstarts].
           destruct (Hstarts Hstart) as (p & Hp & Hpr). by destruct (Hnp p).
  - destruct (step_frame σ r n Hne) as [-> ->]. apply Hσ.
Qed.

Lemma store_ok_run σ rs : store_ok σ → store_ok (run σ rs).1.
Proof.
  revert σ. induction rs as [|r rs IH]; intros σ Hσ; [done|].
  rewrite run_cons. simpl. by apply IH, store_ok_step.
Qed.

(** A notification sent from stores that are as the loop keeps them names
    a file, and the user that the file names. *)
Lemma step_event_ok σ r e :
  store_ok σ → (step σ r).2 = Some e →
  ∃ f, ev_file e = Some f ∧ PyStr.truthy f = true ∧
       ev_user e = parse_username_from_filename f.
Proof.
  intros Hσ (_ & p & Hp & Hpr & He)%step_event.
  apply exit_event_fields in He as (_ & Hfile & Huser & _).
  destruct (Hσ (r_printer r)) as [Hrec _].
  destruct (Hrec p Hp) as (_ & Hprinting & _ & Hparse).
  destruct (Hprinting Hpr) as (f & Hf & Htruthy).
  exists f. rewrite Hfile, Huser, Hparse, Hf. done.
Qed.

Lemma run_events_ok σ rs e :
  store_ok σ → e ∈ (run σ rs).2 →
  ∃ f, ev_file e = Some f ∧ PyStr.truthy f = true ∧
       ev_user e = parse_username_from_filename f.
Proof.
  revert σ. induction rs as [|r rs IH]; intros σ Hσ;
    [by intros ?%elem_of_nil|].
  rewrite run_cons. simpl. intros [He|He]%elem_of_app.
  - destruct (step σ r).2 as [e'|] eqn:Hstep; [|by apply elem_of_nil in He].
    apply list_elem_of_singleton in He as ->. by eapply step_event_ok.
  - eapply IH; [|done]. by apply store_ok_step.
Qed.
End invariants.

(** X10. What the loop keeps true of its two dictionaries, from the start
    of the process on and over any sequence of readings: no record has the
    state [UNKNOWN]; a record has a file name, and then one that is not
    empty, exactly when its state is [PRINTING]; its user is the one that
    the file name names; and a start is on record only for a printer whose
    record says [PRINTING]. *)
Theorem stores_stay_well_formed (rs : list reading) (n : string) :
  let σ := (run empty_store rs).1 in
  (∀ p, previous_states σ !! n = Some p →
     prev_state p ≠ "UNKNOWN" ∧
     (prev_state p = "PRINTING" ↔ is_Some (prev_file_name p)) ∧
     prev_file_name p ≠ Some "" ∧
     prev_username p = prev_file_name p ≫= parse_username_from_filename) ∧
  (is_Some (print_start_times σ !! n) →
   ∃ p, previous_states σ !! n = Some p ∧ prev_state p = "PRINTING").
Proof.
  intros σ.
  destruct (store_ok_run empty_store rs store_ok_empty n) as [Hrec Hstart].
  split; [|done]. intros p Hp.
  destruct (Hrec p Hp) as (Hu & Hprinting & Hother & Huser).
  split_and!; [done| | |done].
  - split.
    + intros Hpr. destruct (Hprinting Hpr) as (f & -> & _). by eexists.
    + intros [f Hf]. destruct (decide (prev_state p = "PRINTING")) as [|Hne]; [done|].
      rewrite (Hother Hne) in Hf. done.
  - intros Hf. destruct (decide (prev_state p = "PRINTING")) as [Hpr|Hne].
    + destruct (Hprinting Hpr) as (f & Hf' & Ht). rewrite Hf in Hf'.
      injection Hf' as <-. done.
    + rewrite (Hother Hne) in Hf. done.
Qed.

(** X11. A notification always names a file and the user that goes with
    it: over any sequence of readings from the start of the process, every
    notification carries a file name that is not empty (the placeholder
    [Unknown file] at the least, never Python's [None]), and its user is
    exactly what [parse_username_from_filename] finds in that file name. *)
Theorem notification_names_file_and_user (rs : list reading) (e : event) :
  e ∈ (run empty_store rs).2 →
  ∃ f, ev_file e = Some f ∧ f ≠ "" ∧
       str_of (ev_file e) = f ∧
       ev_user e = parse_username_from_filename f.
Proof.
  intros He.
  destruct (run_events_ok empty_store rs e store_ok_empty He) as (f & Hf & Ht & Hu).
  exists f. rewrite Hf. split_and!; [done| |done|done].
  intros ->. done.
Qed.

Lemma notification_names_file_and_user_witness :
  let rs := [ {| r_printer := "X1C"; r_now := 0;
                 r_status := bambu_poll "GcodeState.RUNNING" |};
              {| r_printer := "X1C"; r_now := 60000000;
                 r_status := bambu_poll "GcodeState.FAILED" |} ] in
  let e := {| ev_kind := Failed; ev_printer := "X1C"; ev_file := Some "cube_@ann";
              ev_user := Some "ann"; ev_duration := Some "1m" |} in
  e ∈ (run empty_store rs).2 ∧
  ∃ f, ev_file e = Some f ∧ f ≠ "" ∧ str_of (ev_file e) = f ∧
       ev_user e = parse_username_from_filename f.
Proof.
  intros rs e.
  assert (He : e ∈ (run empty_store rs).2) by (vm_compute; left).
  split; [exact He|].
  apply (notification_names_file_and_user rs e He).
Defined.

(** ** A whole pass over the configured printers *)

Section pass.
Implicit Types (net : network) (σ : store) (rows : list row) (clock : nat → Z).

Lemma poll_all_returns net conns printers :
  ∃ rows, poll_all net conns printers = Returns rows ∧
          row_printer <$> rows = printers ∧ Forall row_ok rows.
Proof.
  induction printers as [|p printers (rows & IH & Hps & Hok)].
  - by exists [].
  - destruct (poll_printer_returns net conns p) as [st Hst].
    eexists. simpl. rewrite Hst. simpl. rewrite IH. simpl.
    split; [reflexivity|]. split; [by rewrite fmap_cons, Hps|].
    constructor; [|done]. split; [by exists net, conns, p | done].
Qed.

Lemma check_all_run rows clock i σ :
  Forall row_ok rows → check_all rows clock i σ = run σ (readings_of rows clock i).
Proof.
  intros Hok. revert i σ. induction Hok as [|row rows (_ & Hf & Hu) _ IH]; intros i σ.
  - done.
  - simpl. unfold step. simpl. rewrite <- Hf, <- Hu.
    destruct (check_printer _ _ _ _ _ σ) as [σ' ev]. by rewrite IH.
Qed.

Lemma readings_of_printers rows clock i :
  r_printer <$> readings_of rows clock i = p_name ∘ row_printer <$> rows.
Proof. revert i. induction rows as [|row rows IH]; intros i; simpl; [done|]. by rewrite IH. Qed.

Lemma run_events_length σ (rs : list reading) : (length (run σ rs).2 ≤ length rs)%nat.
Proof.
  revert σ. induction rs as [|r rs IH]; intros σ; [done|].
  rewrite run_cons. simpl. rewrite length_app. specialize (IH (step σ r).1).
  destruct (step σ r).2; simpl; lia.
Qed.

Lemma notified_le_readings σ (rs : list reading) n :
  (notified n (run σ rs).2 ≤ length (filter (λ x, x = n) (r_printer <$> rs)))%nat.
Proof.
  revert σ. induction rs as [|r rs IH]; intros σ; [done|].
  rewrite run_cons, fmap_cons, filter_cons. simpl. rewrite notified_app.
  specialize (IH (step σ r).1).
  assert (notified n (option_list (step σ r).2)
          ≤ if decide (r_printer r = n) then 1 else 0)%nat.
  { unfold notified. destruct (step σ r).2 as [e|] eqn:He; simpl; [|lia].
    rewrite filter_cons, filter_nil, (step_event_printer _ _ _ He).
    case_decide; simpl; lia. }
  case_decide; simpl; lia.
Qed.
End pass.


(** ** Looking a user up among the guild members *)

Section members.
Context (lower : string → string).
Implicit Types (m : member) (members : list member) (u : string).

Lemma first_member_named_Some u members m :
  first_member_named lower u members = Some m ↔
  ∃ before after,
    members = before ++ m :: after ∧
    lower (member_name m) = u ∧
    ∀ m', m' ∈ before → lower (member_name m') ≠ u.
Proof.
  induction members as [|m0 members IH]; simpl.
  - split; [done|]. intros ([|??] & ? & ? & _); done.
  - case_decide as Hm0.
    + split.
      * intros [= <-]. exists [], members. split_and!; [done..|].
        by intros ? ?%elem_of_nil.
      * intros ([|m1 before] & after & Hmem & Hm & Hbefore).
        -- by injection Hmem as -> _.
        -- injection Hmem as -> _. destruct (Hbefore m1); [left | done].
    + rewrite IH. split.
      * intros (before & after & -> & Hm & Hbefore).
        exists (m0 :: before), after. split_and!; [done..|].
        intros m' [->|?]%elem_of_cons; auto.
      * intros ([|m1 before] & after & Hmem & Hm & Hbefore).
        -- injection Hmem as -> _. done.
        -- injection Hmem as -> ->. exists before, after. split_and!; [done..|].
           intros m' Hin. apply Hbefore. by right.
Qed.

Lemma first_member_named_None u members :
  first_member_named lower u members = None ↔
  ∀ m, m ∈ members → lower (member_name m) ≠ u.
Proof.
  induction members as [|m0 members IH]; simpl.
  - split; [|done]. by intros _ ? ?%elem_of_nil.
  - case_decide as Hm0.
    + split; [done|]. intros Hall. destruct (Hall m0); [left | done].
    + rewrite IH. split.
      * intros Hall m [->|?]%elem_of_cons; auto.
      * intros Hall m Hin. apply Hall. by right.
Qed.
End members.

(** X13. [find_member_by_username] finds the first member of the guild
    whose name equals the user name once both are lowered, and no one when
    there is no such member or no user name; two user names that lower to
    the same text find the same member. *)
Theorem find_member_is_first_match (lower : string → string)
    (members : list member) (u : string) :
  find_member_by_username lower members None = None ∧
  (∀ m, find_member_by_username lower members (Some u) = Some m ↔
        ∃ before after,
          members = before ++ m :: after ∧
          lower (member_name m) = lower u ∧
          ∀ m', m' ∈ before → lower (member_name m') ≠ lower u) ∧
  (find_member_by_username lower members (Some u) = None ↔
     ∀ m, m ∈ members → lower (member_name m) ≠ lower u) ∧
  (∀ u', lower u' = lower u →
         find_member_by_username lower members (Some u')
         = find_member_by_username lower members (Some u)).
Proof.
  split_and!; [done | | |].
  - intros m. apply first_member_named_Some.
  - apply first_member_named_None.
  - intros u' Hu. simpl. by rewrite Hu.
Qed.

(** ** Readings that say nothing *)

(** X14. Readings in state [UNKNOWN] are invisible to the loop: taking
    them out of a sequence of readings changes neither the notifications
    sent nor the stores at the end.  So a print that ends while the state
    cannot be read is still notified at the next reading that can, with
    the record and the start of before. *)
Theorem unknown_readings_are_invisible (σ : store) (rs : list reading) :
  run σ rs = run σ (filter (λ r, state (r_status r) ≠ "UNKNOWN") rs).
Proof.
  revert σ. induction rs as [|r rs IH]; intros σ; [done|].
  rewrite filter_cons. case_decide as Hu.
  - rewrite !run_cons. by rewrite IH.
  - rewrite run_cons, step_unknown by done.
    simpl. rewrite <- IH. by destruct (run σ rs).
Qed.

(** ** Connections made at start-up *)

Section connecting.
Context {A : Type} (credentials : printer → option (string * string))
  (connect : string → string → string → outcome A).
Implicit Types (printers : list printer) (conns : gmap string A) (p : printer).

Lemma connect_each_lookup printers conns conns' n :
  connect_each credentials connect printers conns = Returns conns' →
  (is_Some (conns !! n) → is_Some (conns' !! n)) ∧
  (is_Some (conns' !! n) →
   is_Some (conns !! n) ∨ ∃ p, p ∈ printers ∧ p_name p = n ∧ connects credentials connect p).
Proof.
  revert conns. induction printers as [|p printers IH]; intros conns; simpl.
  - intros [= <-]. auto.
  - case_decide as Hty.
    + intros Hrest. destruct (IH _ Hrest) as [Hkeep Hnew]. split; [done|].
      intros [?|(q & ? & ? & ?)]%Hnew; [by left|]. right. exists q. by rewrite elem_of_cons; auto.
    + destruct (credentials p) as [[serial access_code]|] eqn:Hcred; [|done].
      destruct (connect (p_ip p) access_code serial) as [client|e] eqn:Hconn.
      * intros Hrest. destruct (IH _ Hrest) as [Hkeep Hnew]. split.
        -- intros Hn. apply Hkeep. rewrite lookup_insert. case_decide; eauto.
        -- intros [Hn|(q & ? & ? & ?)]%Hnew.
           ++ rewrite lookup_insert in Hn. case_decide as Hname; [|by left].
              right. exists p. split_and!; [left | done |].
              split; [done|]. eauto 6.
           ++ right. exists q. by rewrite elem_of_cons; auto.
      * intros Hrest. destruct (IH _ Hrest) as [Hkeep Hnew]. split; [done|].
        intros [?|(q & ? & ? & ?)]%Hnew; [by left|]. right. exists q.
        by rewrite elem_of_cons; auto.
Qed.
End connecting.

Section start_up.
Context {A : Type} (credentials : printer → option (string * string))
  (connect : string → string → string → outcome A).
Implicit Types (printers : list printer) (conns : gmap string A) (p : printer).

Lemma connect_each_returns printers conns :
  (∃ conns', connect_each credentials connect printers conns = Returns conns') ↔
  ∀ p, p ∈ printers → p_type p = Some "bambu" → is_Some (credentials p).
Proof.
  revert conns. induction printers as [|p printers IH]; intros conns; simpl.
  - split; [by intros _ ? ?%elem_of_nil | eauto].
  - case_decide as Hty.
    + rewrite IH. split.
      * intros Hall q Hq Hbambu.
        apply elem_of_cons in Hq as [->|Hq]; [done | by apply Hall].
      * intros Hall q Hq. apply Hall. by right.
    + destruct (credentials p) as [[serial access_code]|] eqn:Hcred.
      * assert (Hrest : ∀ c,
                  (∃ conns', connect_each credentials connect printers c = Returns conns') ↔
                  ∀ q, q ∈ p :: printers → p_type q = Some "bambu" →
                       is_Some (credentials q)).
        { intros c. rewrite IH. split.
          - intros Hall q Hq Hbambu.
            apply elem_of_cons in Hq as [->|Hq]; [by rewrite Hcred | by apply Hall].
          - intros Hall q Hq. apply Hall. by right. }
        destruct (connect (p_ip p) access_code serial); apply Hrest.
      * split; [by intros [? [=]]|]. intros Hall.
        destruct (Hall p) as [x Hx]; [left | done | congruence].
Qed.
End start_up.


(** ** Bambu polls that give no reading *)

(** X16. The two bare statuses of the Bambu adapter.  A poll gives
    [{"state": "OFFLINE"}] exactly when no connection is held under the
    printer's name, and [{"state": "UNKNOWN"}] exactly when one is held and
    a getter that the poll calls raises.  The file name of the cache is
    called for only when the subtask name is empty or missing, so its
    raising is harmless otherwise.  Every other poll carries the raw state
    of the cache. *)
Theorem bambu_bare_statuses (bambu_connections : gmap string bambu_client)
    (printer_name : string) :
  let poll := get_bambu_status bambu_connections printer_name in
  (poll = Returns (state_only "OFFLINE") ↔
     bambu_connections !! printer_name = None) ∧
  (poll = Returns (state_only "UNKNOWN") ↔
     ∃ client, bambu_connections !! printer_name = Some client ∧
               consulted_getter_raises client) ∧
  (∀ st, poll = Returns st →
         st ≠ state_only "OFFLINE" → st ≠ state_only "UNKNOWN" →
         is_Some (raw_bambu_state st)).
Proof.
  intros poll. subst poll. unfold get_bambu_status, consulted_getter_raises, raises.
  destruct (bambu_connections !! printer_name) as [client|]; simpl.
  2: { split_and!; [by split | | intros st [= <-] ? ?; congruence].
       split; [intros [= H]; apply (f_equal state) in H; discriminate
              | by intros (? & [=] & _)]. }
  destruct (get_state client) as [s|e1] eqn:Hg1; simpl.
  2: { split_and!; [by split | | intros st [= <-] ? ?; congruence].
       split; [|done]. intros _. eexists. split; [done|]. left. eauto. }
  destruct (get_percentage client) as [pc|e2] eqn:Hg2; simpl.
  2: { split_and!; [by split | | intros st [= <-] ? ?; congruence].
       split; [|done]. intros _. eexists. split; [done|]. right; left. eauto. }
  destruct (get_time client) as [tm|e3] eqn:Hg3; simpl.
  2: { split_and!; [by split | | intros st [= <-] ? ?; congruence].
       split; [|done]. intros _. eexists. split; [done|]. do 2 right; left. eauto. }
  destruct (subtask_name client) as [sub|e4] eqn:Hg4; simpl.
  2: { split_and!; [by split | | intros st [= <-] ? ?; congruence].
       split; [|done]. intros _. eexists. split; [done|]. do 3 right; left. eauto. }
  destruct (if is_truthy sub then Returns sub else client_get_file_name client)
    as [f|e5] eqn:Hfile; simpl.
  2: { split_and!; [by split | | intros st [= <-] ? ?; congruence].
       split; [|done]. intros _. eexists. split; [done|]. do 4 right; left.
       destruct (is_truthy sub) eqn:Hsub; [done|]. eauto 6. }
  destruct (current_layer_num client) as [cl|e6] eqn:Hg5; simpl.
  2: { split_and!; [by split | | intros st [= <-] ? ?; congruence].
       split; [|done]. intros _. eexists. split; [done|]. do 5 right; left. eauto. }
  destruct (total_layer_num client) as [tl|e7] eqn:Hg6; simpl.
  2: { split_and!; [by split | | intros st [= <-] ? ?; congruence].
       split; [|done]. intros _. eexists. split; [done|]. do 6 right. eauto. }
  split_and!; [by split | | intros st [= <-]; by eexists].
  split; [done|]. intros (client' & [= <-] & Hraise).
  destruct Hraise as [[? ?] | [[? ?] | [[? ?] | [[? ?] |
                     [[(sub' & Hsub' & Hsub) [? Hcf]] | [[? ?] | [? ?]]]]]]];
    try congruence.
  assert (sub' = sub) as -> by congruence.
  rewrite Hsub, Hcf in Hfile. done.
Qed.
